(** * LOVB fantasy-volleyball app: the lineup allocator and its two screens

    A shallow embedding of [contexts/TeamContext.tsx] (the [TeamProvider]
    state container), of the [TeamBuilder] screen ([canSave], [handleSave])
    and of the [PlayerList] screen ([handleSelectPlayer]), followed by the
    properties of the budget rule.

    Conventions of the embedding.
    - A JavaScript [number] holding a credit amount is an integer ([Z]); the
      per-set averages of [PlayerStats] are rationals ([Q]).
    - An argument of type [Player | null] is an [option Player].  A slot of
      the lineup is a [Slot]: [null], a player object, or [undefined], which
      is what [loadLineup] stores for a slot key the payload does not have.
    - React state ([useState]) is a record; a call of a state setter, of
      [fetch], of [console.error], of [Alert.alert] or of the router is an
      event of a trace, in program order.
    - An [async] function is a computation that yields its trace together
      with either the value it resolves to or the error it rejects with.  The
      reply of the server to the one [fetch] such a function performs is an
      argument of the function, and so is what reading the body of the
      response ([await response.json()]) gives: a parsed value or an error.
    - The provider re-renders after each of its operations: an operation is
      called from the render that follows the one before it, and so sees the
      lineup that operation left.  Calls made from one and the same render
      share the lineup that render captured; [same_render] models those. *)

From Stdlib Require Import ZArith QArith List String Ascii Bool Lia DecimalString.
From Stdlib Require Import Permutation Sorted.
Import ListNotations.
Open Scope string_scope.
Open Scope Z_scope.

(** ** Data model ([TeamContext.tsx], lines 4-34) *)

Record PlayerStats : Type := mkPlayerStats {
  matches : Z;
  sets : Z;
  kills_per_set : Q;
  digs_per_set : Q;
  blocks_per_set : Q;
  aces_per_set : Q
}.

Record Player : Type := mkPlayer {
  id : string;
  name : string;
  jerseyNumber : Z;
  position : string;
  teamName : string;
  creditCost : Z;
  bio : string;
  imageBase64 : string;
  stats : PlayerStats
}.

(** What a slot of the lineup holds at run time. *)
Inductive Slot : Type :=
| Undefined
| Null
| Obj (p : Player).

(** A value of type [Player | null] stored in a slot. *)
Definition of_nullable (player : option Player) : Slot :=
  match player with
  | Some p => Obj p
  | None => Null
  end.

(** The player object a slot holds, if it holds one. *)
Definition player_of (slot : Slot) : option Player :=
  match slot with
  | Obj p => Some p
  | _ => None
  end.

Record Lineup : Type := mkLineup {
  setter : Slot;
  outsideHitter : Slot;
  oppositeHitter : Slot;
  middleBlocker : Slot;
  libero : Slot;
  defensiveSpecialist : Slot;
  creditsUsed : Z;
  remaining : Z
}.

(** The six position keys ([PositionKey] of the team builder; the keys
    [calculateCredits] iterates over). *)
Inductive PositionKey : Type :=
| Ksetter
| KoutsideHitter
| KoppositeHitter
| KmiddleBlocker
| Klibero
| KdefensiveSpecialist.

Definition PositionKey_eqb (a b : PositionKey) : bool :=
  match a, b with
  | Ksetter, Ksetter
  | KoutsideHitter, KoutsideHitter
  | KoppositeHitter, KoppositeHitter
  | KmiddleBlocker, KmiddleBlocker
  | Klibero, Klibero
  | KdefensiveSpecialist, KdefensiveSpecialist => true
  | _, _ => false
  end.

(** [lineup[pos]] for a position key. *)
Definition get_slot (l : Lineup) (pos : PositionKey) : Slot :=
  match pos with
  | Ksetter => setter l
  | KoutsideHitter => outsideHitter l
  | KoppositeHitter => oppositeHitter l
  | KmiddleBlocker => middleBlocker l
  | Klibero => libero l
  | KdefensiveSpecialist => defensiveSpecialist l
  end.

(** [{ ...lineup, [position]: player }]: a copy with one slot replaced; the
    two derived fields are copied as they are. *)
Definition set_slot (l : Lineup) (pos : PositionKey) (player : Slot)
  : Lineup :=
  match pos with
  | Ksetter =>
      mkLineup player (outsideHitter l) (oppositeHitter l) (middleBlocker l)
               (libero l) (defensiveSpecialist l) (creditsUsed l) (remaining l)
  | KoutsideHitter =>
      mkLineup (setter l) player (oppositeHitter l) (middleBlocker l)
               (libero l) (defensiveSpecialist l) (creditsUsed l) (remaining l)
  | KoppositeHitter =>
      mkLineup (setter l) (outsideHitter l) player (middleBlocker l)
               (libero l) (defensiveSpecialist l) (creditsUsed l) (remaining l)
  | KmiddleBlocker =>
      mkLineup (setter l) (outsideHitter l) (oppositeHitter l) player
               (libero l) (defensiveSpecialist l) (creditsUsed l) (remaining l)
  | Klibero =>
      mkLineup (setter l) (outsideHitter l) (oppositeHitter l) (middleBlocker l)
               player (defensiveSpecialist l) (creditsUsed l) (remaining l)
  | KdefensiveSpecialist =>
      mkLineup (setter l) (outsideHitter l) (oppositeHitter l) (middleBlocker l)
               (libero l) player (creditsUsed l) (remaining l)
  end.

(** ** The allocator ([TeamProvider], lines 50-85) *)

(** The argument of [useState<Lineup>]. *)
Definition initialLineup : Lineup :=
  mkLineup Null Null Null Null Null Null 0 100.

(** The array [positions] of [calculateCredits]. *)
Definition positions : list PositionKey :=
  [Ksetter; KoutsideHitter; KoppositeHitter; KmiddleBlocker; Klibero;
   KdefensiveSpecialist].

(** The object [{ creditsUsed: total, remaining: 100 - total }]. *)
Record Credits : Type := mkCredits {
  credits_creditsUsed : Z;
  credits_remaining : Z
}.

(** [calculateCredits]: [total] starts at 0 and the [forEach] adds the
    [creditCost] of every slot that holds a player object. *)
Definition calculateCredits (newLineup : Lineup) : Credits :=
  let total :=
    fold_left
      (fun total pos =>
         match get_slot newLineup pos with
         | Obj player => total + creditCost player
         | _ => total
         end)
      positions 0 in
  mkCredits total (100 - total).

(** [{ ...newLineup, ...credits }]. *)
Definition spread_credits (newLineup : Lineup) (credits : Credits) : Lineup :=
  mkLineup (setter newLineup) (outsideHitter newLineup)
           (oppositeHitter newLineup) (middleBlocker newLineup)
           (libero newLineup) (defensiveSpecialist newLineup)
           (credits_creditsUsed credits) (credits_remaining credits).

(** The lineup [setPlayerToPosition] hands to [setLineup]. *)
Definition setPlayerToPosition_lineup
  (lineup : Lineup) (pos : PositionKey) (player : option Player) : Lineup :=
  let newLineup := set_slot lineup pos (of_nullable player) in
  let credits := calculateCredits newLineup in
  spread_credits newLineup credits.

(** ** JavaScript values and effects *)

(** The errors these functions can raise: [new Error(message)], the
    [TypeError] of a failed [fetch] or of a property read on [null], the
    [SyntaxError] of a body that is not JSON, and the [ReferenceError] of an
    identifier that is not bound in the module that evaluates it. *)
Inductive JsError : Type :=
| Error (message : string)
| TypeError (message : string)
| SyntaxError (message : string)
| ReferenceError (identifier : string).

(** [error.message]. *)
Definition error_message (e : JsError) : string :=
  match e with
  | Error m => m
  | TypeError m => m
  | SyntaxError m => m
  | ReferenceError x => x ++ " is not defined"
  end.

(** [s || fallback] for a string that may be missing: the empty string is
    falsy. *)
Definition or_string (s : option string) (fallback : string) : string :=
  match s with
  | Some EmptyString => fallback
  | Some s' => s'
  | None => fallback
  end.

(** [n || fallback] for a number that may be missing: zero is falsy. *)
Definition or_number (n : option Z) (fallback : Z) : Z :=
  match n with
  | Some n' => if n' =? 0 then fallback else n'
  | None => fallback
  end.

(** [player?.id || null]: [undefined?.id] and [null?.id] are [undefined]. *)
Definition id_or_null (player : Slot) : option string :=
  match player with
  | Obj p => match id p with EmptyString => None | s => Some s end
  | _ => None
  end.

(** A number inside a template literal. *)
Definition number_to_string (n : Z) : string :=
  NilZero.string_of_int (Z.to_int n).

Definition newline : string := String (ascii_of_nat 10) EmptyString.

(** Modelled from the spec: the signed-in identity of [AuthContext] (its
    source file is not part of the sources at hand); the identity provider
    supplies a bearer token, the only field the allocator reads. *)
Record User : Type := mkUser {
  user_name : string;
  token : string
}.

(** The URL [`${BACKEND_URL}${path}`]. *)
Inductive Url : Type :=
| Backend (path : string).

Inductive Method : Type := GET | POST.

(** The object [body] of [saveLineup], before [JSON.stringify]. *)
Record SaveBody : Type := mkSaveBody {
  body_setter : option string;
  body_outsideHitter : option string;
  body_oppositeHitter : option string;
  body_middleBlocker : option string;
  body_libero : option string;
  body_defensiveSpecialist : option string
}.

Record Request : Type := mkRequest {
  url : Url;
  method : Method;
  headers : list (string * string);
  body : option SaveBody
}.

(** A response: its [ok] flag and what [await response.json()] does when it
    is called, which is to reject (with the [SyntaxError] of a body that is
    not JSON, say) or to yield the parsed value. *)
Record Response (B : Type) : Type := mkResponse {
  ok : bool;
  json : JsError + B
}.
Arguments mkResponse {B} _ _.
Arguments ok {B} _.
Arguments json {B} _.

(** What the network does with a request: [fetch] rejects, or a response
    arrives. *)
Inductive NetReply (B : Type) : Type :=
| Rejects (e : JsError)
| Replies (response : Response B).
Arguments Rejects {B} _.
Arguments Replies {B} _.

(** A parsed JSON value; a number is an integer, and an object is the list
    of its own properties, each key once. *)
#[local] Unset Elimination Schemes.
Inductive Json : Type :=
| JNull
| JBool (b : bool)
| JNum (n : Z)
| JStr (s : string)
| JArr (items : list Json)
| JObj (properties : list (string * Json)).
#[local] Set Elimination Schemes.

(** The body of a response of [POST /api/lineup/save] that is not [ok] is
    whatever JSON the server sent. *)
Definition SaveError : Type := Json.

(** The own property [key] of an object. *)
Fixpoint own_property (key : string) (properties : list (string * Json))
  : option Json :=
  match properties with
  | [] => None
  | (k, v) :: rest => if String.eqb key k then Some v else own_property key rest
  end.

(** [error.detail] for a parsed value [error]: a [TypeError] on [null], the
    own property of an object, and [undefined] ([None]) on anything else
    (no number, string, boolean, array or [Object.prototype] has a
    property of that name). *)
Definition read_detail (error : Json) : JsError + option Json :=
  match error with
  | JNull =>
      inl (TypeError "Cannot read properties of null (reading 'detail')")
  | JObj properties => inr (own_property "detail" properties)
  | _ => inr None
  end.

(** Truthiness of a parsed value. *)
Definition truthy (v : Json) : bool :=
  match v with
  | JNull => false
  | JBool b => b
  | JNum n => negb (n =? 0)
  | JStr EmptyString => false
  | JStr _ => true
  | JArr _ => true
  | JObj _ => true
  end.

(** [String(v)], the conversion [new Error(v)] applies to its argument: an
    array is its elements joined by commas, [null] elements giving nothing,
    and an object is ["[object Object]"]. *)
Fixpoint js_to_string (v : Json) : string :=
  match v with
  | JNull => "null"
  | JBool true => "true"
  | JBool false => "false"
  | JNum n => NilZero.string_of_int (Z.to_int n)
  | JStr s => s
  | JArr items =>
      (fix join (l : list Json) : string :=
         match l with
         | [] => EmptyString
         | x :: rest =>
             let first :=
               match x with
               | JNull => EmptyString
               | _ => js_to_string x
               end in
             match rest with
             | [] => first
             | _ :: _ => first ++ "," ++ join rest
             end
         end) items
  | JObj _ => "[object Object]"
  end.

(** [v || fallback] where [v] may be [undefined]. *)
Definition or_value (v : option Json) (fallback : Json) : Json :=
  match v with
  | Some v' => if truthy v' then v' else fallback
  | None => fallback
  end.

(** The payload of [GET /api/lineup], parsed: a slot is [Undefined] when the
    payload has no such key; a derived field is [None] when the payload has
    no such field or has [null] there. *)
Record LineupData : Type := mkLineupData {
  data_setter : Slot;
  data_outsideHitter : Slot;
  data_oppositeHitter : Slot;
  data_middleBlocker : Slot;
  data_libero : Slot;
  data_defensiveSpecialist : Slot;
  data_creditsUsed : option Z;
  data_remaining : option Z
}.

(** The observable steps of a run, in program order. *)
Inductive Event : Type :=
| SetLineup (l : Lineup)
| SetSaving (b : bool)
| Fetch (req : Request)
| ConsoleError (label : string) (e : JsError)
| AlertShown (title message : string) (buttons : list string)
| RouterBack
| SetSelectedPlayer (p : option Player).

(** A run: its trace, and the error thrown or the value returned. *)
Definition Eff (A : Type) : Type := (list Event * (JsError + A))%type.

Definition ret {A : Type} (a : A) : Eff A := ([], inr a).

Definition throw {A : Type} (e : JsError) : Eff A := ([], inl e).

Definition emit (ev : Event) : Eff unit := ([ev], inr tt).

Definition bind {A B : Type} (m : Eff A) (k : A -> Eff B) : Eff B :=
  match m with
  | (t, inl e) => (t, inl e)
  | (t, inr a) => let (t', r) := k a in ((t ++ t')%list, r)
  end.

Notation "x <- m ;; k" := (bind m (fun x => k))
  (at level 61, m at next level, right associativity).
Notation "m ;; k" := (bind m (fun _ => k))
  (at level 61, right associativity).

(** [try { m } catch (error) { handler error }]. *)
Definition try_catch {A : Type} (m : Eff A) (handler : JsError -> Eff A)
  : Eff A :=
  match m with
  | (t, inl e) => let (t', r) := handler e in ((t ++ t')%list, r)
  | (t, inr a) => (t, inr a)
  end.

(** [try { m } finally { cleanup }]: the clean-up runs on both exits and the
    outcome of [m] is kept, unless the clean-up throws. *)
Definition try_finally {A : Type} (m : Eff A) (cleanup : Eff unit) : Eff A :=
  let (t, r) := m in
  match cleanup with
  | (t', inl e) => ((t ++ t')%list, inl e)
  | (t', inr _) => ((t ++ t')%list, r)
  end.

Definition trace {A : Type} (m : Eff A) : list Event := fst m.

Definition outcome {A : Type} (m : Eff A) : JsError + A := snd m.

(** [await fetch(url, init)] when the network answers with [reply]. *)
Definition fetch {B : Type} (req : Request) (reply : NetReply B)
  : Eff (Response B) :=
  emit (Fetch req) ;;
  match reply with
  | Rejects e => throw e
  | Replies response => ret response
  end.

(** [await response.json()]. *)
Definition await_json {B : Type} (response : Response B) : Eff B :=
  match json response with
  | inl e => throw e
  | inr value => ret value
  end.

(** The names a module imports from ['react-native']; an identifier that a
    module neither imports nor declares is unbound there. *)
Definition in_scope (imports : list string) (identifier : string) : bool :=
  existsb (String.eqb identifier) imports.

(** [Alert.alert(title, message, buttons)] evaluated in a module with the
    given imports: the reference [Alert] is resolved first. *)
Definition Alert_alert (imports : list string)
  (title message : string) (buttons : list string) : Eff unit :=
  if in_scope imports "Alert"
  then emit (AlertShown title message buttons)
  else throw (ReferenceError "Alert").

(** ** The provider's two pieces of state and its operations *)

Record TeamState : Type := mkTeamState {
  st_lineup : Lineup;
  st_saving : bool
}.

Definition initialState : TeamState := mkTeamState initialLineup false.

Definition apply_event (st : TeamState) (ev : Event) : TeamState :=
  match ev with
  | SetLineup l => mkTeamState l (st_saving st)
  | SetSaving b => mkTeamState (st_lineup st) b
  | _ => st
  end.

(** The state once every setter call of a trace has been applied. *)
Definition run_trace (st : TeamState) (t : list Event) : TeamState :=
  fold_left apply_event t st.

Definition after {A : Type} (st : TeamState) (m : Eff A) : TeamState :=
  run_trace st (trace m).

(** [setPlayerToPosition] (lines 81-85): one call of [setLineup]. *)
Definition setPlayerToPosition
  (lineup : Lineup) (pos : PositionKey) (player : option Player) : Eff unit :=
  emit (SetLineup (setPlayerToPosition_lineup lineup pos player)).

(** [saveLineup] (lines 87-117). *)
Definition saveLineup (user : option User) (lineup : Lineup)
  (reply : NetReply SaveError) : Eff unit :=
  match user with
  | None => ret tt
  | Some u =>
      emit (SetSaving true) ;;
      try_finally
        (let body :=
           mkSaveBody (id_or_null (setter lineup))
                      (id_or_null (outsideHitter lineup))
                      (id_or_null (oppositeHitter lineup))
                      (id_or_null (middleBlocker lineup))
                      (id_or_null (libero lineup))
                      (id_or_null (defensiveSpecialist lineup)) in
         response <-
           fetch (mkRequest (Backend "/api/lineup/save") POST
                    [("Content-Type", "application/json");
                     ("Authorization", "Bearer " ++ token u)]
                    (Some body)) reply ;;
         if negb (ok response) then
           error <- await_json response ;;
           match read_detail error with
           | inl e => throw e
           | inr detail =>
               throw (Error (js_to_string
                               (or_value detail (JStr "Failed to save lineup"))))
           end
         else ret tt)
        (emit (SetSaving false))
  end.

(** [loadLineup] (lines 119-145). *)
Definition loadLineup (user : option User) (reply : NetReply LineupData)
  : Eff unit :=
  match user with
  | None => ret tt
  | Some u =>
      try_catch
        (response <-
           fetch (mkRequest (Backend "/api/lineup") GET
                    [("Authorization", "Bearer " ++ token u)] None) reply ;;
         if ok response then
           data <- await_json response ;;
           emit (SetLineup
                   (mkLineup (data_setter data) (data_outsideHitter data)
                      (data_oppositeHitter data) (data_middleBlocker data)
                      (data_libero data) (data_defensiveSpecialist data)
                      (or_number (data_creditsUsed data) 0)
                      (or_number (data_remaining data) 100)))
         else ret tt)
        (fun error => emit (ConsoleError "Failed to load lineup:" error))
  end.

(** ** The team-builder screen ([canSave], [handleSave]) *)

Module TeamBuilder.

(** The import list of the screen from ['react-native']. *)
Definition react_native_imports : list string :=
  ["View"; "Text"; "TouchableOpacity"; "StyleSheet"; "SafeAreaView";
   "ScrollView"; "Image"; "Alert"; "ActivityIndicator"; "Modal"].

Record PositionInfo : Type := mkPositionInfo {
  key : PositionKey;
  label : string;
  abbr : string
}.

Definition POSITIONS : list PositionInfo :=
  [mkPositionInfo Ksetter "Setter" "S";
   mkPositionInfo KoutsideHitter "Outside Hitter" "OH";
   mkPositionInfo KoppositeHitter "Opposite Hitter" "OPP";
   mkPositionInfo KmiddleBlocker "Middle Blocker" "MB";
   mkPositionInfo Klibero "Libero" "L";
   mkPositionInfo KdefensiveSpecialist "Defensive Specialist" "DS"].

(** [lineup[pos.key] !== null]: [undefined] is not [null]. *)
Definition not_null (slot : Slot) : bool :=
  match slot with
  | Null => false
  | Undefined => true
  | Obj _ => true
  end.

Definition canSave (lineup : Lineup) : bool :=
  let allFilled :=
    forallb (fun pos => not_null (get_slot lineup (key pos))) POSITIONS in
  let withinBudget := remaining lineup >=? 0 in
  allFilled && withinBudget.

Definition handleSave (user : option User) (lineup : Lineup)
  (reply : NetReply SaveError) : Eff unit :=
  if negb (canSave lineup) then
    if remaining lineup <? 0 then
      Alert_alert react_native_imports "Budget Exceeded"
        ("You're over budget by "
           ++ number_to_string (Z.abs (remaining lineup)) ++ " credits!") []
    else
      Alert_alert react_native_imports "Incomplete Lineup"
        "Please fill all 6 positions before saving." []
  else
    try_catch
      (saveLineup user lineup reply ;;
       Alert_alert react_native_imports "Success"
         "Your lineup has been saved!" [])
      (fun error =>
         Alert_alert react_native_imports "Error"
           (or_string (Some (error_message error)) "Failed to save lineup")
           []).

End TeamBuilder.

(** ** The player-list screen ([handleSelectPlayer]) *)

Module PlayerList.

(** The import list of the screen from ['react-native']; the module has
    no other binding of a name of that package. *)
Definition react_native_imports : list string :=
  ["View"; "Text"; "TouchableOpacity"; "StyleSheet"; "SafeAreaView";
   "FlatList"; "TextInput"; "Image"; "ActivityIndicator"; "Modal"].

(** [lineup[params.position]] holds a player object: its [creditCost],
    and 0 otherwise. *)
Definition currentCost (currentPlayer : Slot) : Z :=
  match currentPlayer with
  | Obj p => creditCost p
  | _ => 0
  end.

Definition budget_message (player : Player) (availableCredits : Z) : string :=
  "You don't have enough credits to select this player."
    ++ newline ++ newline
    ++ "Player Cost: " ++ number_to_string (creditCost player) ++ " credits"
    ++ newline
    ++ "Available Credits: " ++ number_to_string availableCredits
    ++ " credits"
    ++ newline ++ newline
    ++ "Please select a cheaper player or remove other players to free up credits.".

(** [params_position] is the route parameter [position]: [None] when the
    list was opened without one. *)
Definition handleSelectPlayer (params_position : option PositionKey)
  (lineup : Lineup) (player : Player) : Eff unit :=
  match params_position with
  | Some pos =>
      let currentPlayer := get_slot lineup pos in
      let newTotal :=
        creditsUsed lineup - currentCost currentPlayer + creditCost player in
      if newTotal >? 100 then
        let availableCredits :=
          100 - (creditsUsed lineup - currentCost currentPlayer) in
        Alert_alert react_native_imports "Budget Exceeded"
          (budget_message player availableCredits) ["OK"]
      else
        setPlayerToPosition lineup pos (Some player) ;;
        emit RouterBack
  | None => emit (SetSelectedPlayer (Some player))
  end.

End PlayerList.

(** ** Runs of the provider *)

(** What a client of the context can make the provider do. *)
Inductive Action : Type :=
| DoSetPlayerToPosition (pos : PositionKey) (player : option Player)
| DoLoadLineup (reply : NetReply LineupData)
| DoSaveLineup (reply : NetReply SaveError).

(** Each operation is called from a fresh render, with the lineup the
    operation before it left (see [same_render] for calls that share a
    render). *)
Definition perform (user : option User) (st : TeamState) (a : Action)
  : TeamState :=
  match a with
  | DoSetPlayerToPosition pos player =>
      after st (setPlayerToPosition (st_lineup st) pos player)
  | DoLoadLineup reply => after st (loadLineup user reply)
  | DoSaveLineup reply => after st (saveLineup user (st_lineup st) reply)
  end.

Definition perform_all (user : option User) (st : TeamState)
  (actions : list Action) : TeamState :=
  fold_left (perform user) actions st.

(** A sequence of [setPlayerToPosition] calls from the initial state, the
    provider re-rendering after each call. *)
Definition assign_all (calls : list (PositionKey * option Player)) : Lineup :=
  fold_left
    (fun lineup call =>
       st_lineup
         (after (mkTeamState lineup false)
                (setPlayerToPosition lineup (fst call) (snd call))))
    calls initialLineup.

(** ** What the properties are stated with *)

Definition slot_cost (slot : Slot) : Z :=
  match slot with
  | Obj p => creditCost p
  | _ => 0
  end.

(** The sum of [creditCost] over the occupied slots. *)
Definition occupied_cost (l : Lineup) : Z :=
  slot_cost (setter l) + slot_cost (outsideHitter l)
  + slot_cost (oppositeHitter l) + slot_cost (middleBlocker l)
  + slot_cost (libero l) + slot_cost (defensiveSpecialist l).

Definition budget_identity (l : Lineup) : Prop :=
  creditsUsed l + remaining l = 100.

Definition all_occupied (l : Lineup) : Prop :=
  forall pos, exists p, get_slot l pos = Obj p.

(** No slot is [null]: what [allFilled] of [canSave] tests. *)
Definition no_null_slot (l : Lineup) : Prop :=
  forall pos, get_slot l pos <> Null.

(** No slot is [undefined]. *)
Definition no_undefined_slot (l : Lineup) : Prop :=
  forall pos, get_slot l pos <> Undefined.

(** The calls of [actions], all made from the render that shows [st]: each
    call sees the lineup of [st], and the setter calls take effect in
    order. *)
Definition same_render (user : option User) (st : TeamState)
  (actions : list Action) : TeamState :=
  run_trace st
    (flat_map
       (fun a =>
          match a with
          | DoSetPlayerToPosition pos player =>
              trace (setPlayerToPosition (st_lineup st) pos player)
          | DoLoadLineup reply => trace (loadLineup user reply)
          | DoSaveLineup reply => trace (saveLineup user (st_lineup st) reply)
          end)
       actions).

Definition is_fetch (ev : Event) : bool :=
  match ev with
  | Fetch _ => true
  | _ => false
  end.

(** The network requests of a run. *)
Definition network_calls {A : Type} (m : Eff A) : list Event :=
  filter is_fetch (trace m).

Definition is_setLineup (ev : Event) : bool :=
  match ev with
  | SetLineup _ => true
  | _ => false
  end.


(** ** Sample data *)

Definition noStats : PlayerStats := mkPlayerStats 0 0 0%Q 0%Q 0%Q 0%Q.

Definition samplePlayer (ident : string) (cost : Z) : Player :=
  mkPlayer ident ident 1 "S" "Team" cost "bio" "img" noStats.

Definition p20a : Player := samplePlayer "p1" 20.
Definition p20b : Player := samplePlayer "p2" 20.
Definition p20c : Player := samplePlayer "p3" 20.
Definition p20d : Player := samplePlayer "p4" 20.
Definition p10a : Player := samplePlayer "p5" 10.
Definition p10b : Player := samplePlayer "p6" 10.
Definition p30 : Player := samplePlayer "p7" 30.

Definition someUser : User := mkUser "ana" "tok".

(** Six players costing 20, 20, 20, 20, 10 and 10, assigned one by one. *)
Definition fullCalls : list (PositionKey * option Player) :=
  [(Ksetter, Some p20a); (KoutsideHitter, Some p20b);
   (KoppositeHitter, Some p20c); (KmiddleBlocker, Some p20d);
   (Klibero, Some p10a); (KdefensiveSpecialist, Some p10b)].

Definition fullLineup : Lineup := Eval cbv in assign_all fullCalls.

(** The payload a server sends back for [fullLineup]. *)
Definition fullData : LineupData :=
  mkLineupData (Obj p20a) (Obj p20b) (Obj p20c) (Obj p20d)
               (Obj p10a) (Obj p10b) (Some 100) (Some 0).

(** The JSON error payload of a save: an object with a [detail] string, or
    without one. *)
Definition saveErrorBody (detail : option string) : SaveError :=
  JObj match detail with
       | Some d => [("detail", JStr d)]
       | None => []
       end.

(** A response whose body has been read as [payload]. *)
Definition parsed {B : Type} (ok : bool) (payload : B) : Response B :=
  mkResponse ok (inr payload).

(** ** The save gate and the failure of a load, as properties of a run *)

(** All six slots occupied and the budget respected. *)
Definition save_gate (lineup : Lineup) : Prop :=
  all_occupied lineup /\ 0 <= remaining lineup.

(** A save is attempted exactly when the gate passes, whoever the user is. *)
Definition save_attempted_iff_gate (user : option User) (lineup : Lineup)
  (reply : NetReply SaveError) : Prop :=
  network_calls (TeamBuilder.handleSave user lineup reply) <> []
  <-> save_gate lineup.


(** No slot is [null] and the budget is respected: what [canSave] tests. *)
Definition canSave_gate_holds (lineup : Lineup) : Prop :=
  no_null_slot lineup /\ 0 <= remaining lineup.

(** The load failed: [fetch] rejected or the response is not [ok]. *)
Definition load_fails (reply : NetReply LineupData) : Prop :=
  match reply with
  | Rejects _ => True
  | Replies response => ok response = false
  end.

Definition is_consoleError (ev : Event) : bool :=
  match ev with
  | ConsoleError _ _ => true
  | _ => false
  end.

Definition is_alert (ev : Event) : bool :=
  match ev with
  | AlertShown _ _ _ => true
  | _ => false
  end.

(** The lines a run writes to the console. *)
Definition console_log {A : Type} (m : Eff A) : list Event :=
  filter is_consoleError (trace m).

(** The alerts a run shows to the user. *)
Definition alerts {A : Type} (m : Eff A) : list Event :=
  filter is_alert (trace m).

(** A failed load leaves the state alone, is logged, and is not surfaced. *)
Definition failed_load_logged_and_ignored (user : option User)
  (st : TeamState) (reply : NetReply LineupData) : Prop :=
  let m := loadLineup user reply in
  after st m = st
  /\ console_log m <> []
  /\ alerts m = []
  /\ outcome m = inr tt.

(** A lineup over budget: [fullLineup] with the libero replaced by a player
    costing 30. *)
Definition overLineup : Lineup :=
  Eval cbv in assign_all (fullCalls ++ [(Klibero, Some p30)])%list.

(** [data[pos]] for a position key. *)
Definition data_slot (data : LineupData) (pos : PositionKey) : Slot :=
  match pos with
  | Ksetter => data_setter data
  | KoutsideHitter => data_outsideHitter data
  | KoppositeHitter => data_oppositeHitter data
  | KmiddleBlocker => data_middleBlocker data
  | Klibero => data_libero data
  | KdefensiveSpecialist => data_defensiveSpecialist data
  end.

(** A successful response whose body parses to [payload]. *)
Definition okReply {B : Type} (payload : B) : NetReply B :=
  Replies (parsed true payload).

(** Fill the lineup for 100 credits, save it, and load it back. *)
Definition fill_save_reload : list Action :=
  (map (fun call => DoSetPlayerToPosition (fst call) (snd call)) fullCalls
     ++ [DoSaveLineup (okReply (saveErrorBody None));
         DoLoadLineup (okReply fullData)])%list.

(** ** The rest of the provider and of the screens *)

(** The effect [useEffect(() => { if (user) loadLineup(); }, [user])] of the
    provider, run when the signed-in identity changes to [user]. *)
Definition useEffect_user (user : option User) (reply : NetReply LineupData)
  : Eff unit :=
  match user with
  | Some _ => loadLineup user reply
  | None => ret tt
  end.

(** [body[pos]] for a position key. *)
Definition body_slot (b : SaveBody) (pos : PositionKey) : option string :=
  match pos with
  | Ksetter => body_setter b
  | KoutsideHitter => body_outsideHitter b
  | KoppositeHitter => body_oppositeHitter b
  | KmiddleBlocker => body_middleBlocker b
  | Klibero => body_libero b
  | KdefensiveSpecialist => body_defensiveSpecialist b
  end.

(** A sequence of selections made in the player list, each for a position,
    from the initial lineup; every selection sees the lineup of the current
    render. *)
Definition select_all (choices : list (PositionKey * Player)) : Lineup :=
  fold_left
    (fun lineup choice =>
       st_lineup
         (after (mkTeamState lineup false)
                (PlayerList.handleSelectPlayer (Some (fst choice)) lineup
                   (snd choice))))
    choices initialLineup.

(** [Object.values(lineup)]: the six slots, then the two numbers. *)
Definition Object_values (l : Lineup) : list (Slot + Z) :=
  [inl (setter l); inl (outsideHitter l); inl (oppositeHitter l);
   inl (middleBlocker l); inl (libero l); inl (defensiveSpecialist l);
   inr (creditsUsed l); inr (remaining l)].

(** [isSelected] of [renderPlayer]: some value of the lineup is a player
    object with the [id] of the item. *)
Definition isSelected (lineup : Lineup) (item : Player) : bool :=
  existsb
    (fun v =>
       match v with
       | inl (Obj p) => String.eqb (id p) (id item)
       | _ => false
       end)
    (Object_values lineup).

(** The [disabled] property of a player card. *)
Definition card_disabled (params_position : option PositionKey)
  (lineup : Lineup) (item : Player) : bool :=
  isSelected lineup item
  && match params_position with Some _ => false | None => true end.

(** Events of the handlers that live outside the provider. *)
Inductive UiEvent : Type :=
| UiSetLoading (b : bool)
| UiSetPlayers (data : list Player)
| UiFetch (req : Request)
| UiConsoleError (label : string) (e : JsError)
| UiAlert (title message : string)
| UiRouterReplace (path : string)
| UiSignUp (email password name : string).

Definition Ui (A : Type) : Type := (list UiEvent * (JsError + A))%type.

Definition ui_ret {A : Type} (a : A) : Ui A := ([], inr a).

Definition ui_throw {A : Type} (e : JsError) : Ui A := ([], inl e).

Definition ui_emit (ev : UiEvent) : Ui unit := ([ev], inr tt).

Definition ui_bind {A B : Type} (m : Ui A) (k : A -> Ui B) : Ui B :=
  match m with
  | (t, inl e) => (t, inl e)
  | (t, inr a) => let (t', r) := k a in ((t ++ t')%list, r)
  end.

Notation "x <~ m ;> k" := (ui_bind m (fun x => k))
  (at level 61, m at next level, right associativity).
Notation "m ;> k" := (ui_bind m (fun _ => k))
  (at level 61, right associativity).

Definition ui_try_catch {A : Type} (m : Ui A) (handler : JsError -> Ui A)
  : Ui A :=
  match m with
  | (t, inl e) => let (t', r) := handler e in ((t ++ t')%list, r)
  | (t, inr a) => (t, inr a)
  end.

Definition ui_try_finally {A : Type} (m : Ui A) (cleanup : Ui unit) : Ui A :=
  let (t, r) := m in
  match cleanup with
  | (t', inl e) => ((t ++ t')%list, inl e)
  | (t', inr _) => ((t ++ t')%list, r)
  end.

Definition ui_fetch {B : Type} (req : Request) (reply : NetReply B)
  : Ui (Response B) :=
  ui_emit (UiFetch req) ;>
  match reply with
  | Rejects e => ui_throw e
  | Replies response => ui_ret response
  end.

(** [await response.json()]. *)
Definition ui_await_json {B : Type} (response : Response B) : Ui B :=
  match json response with
  | inl e => ui_throw e
  | inr value => ui_ret value
  end.

(** [Alert.alert(title, message)] in a module with the given imports. *)
Definition ui_Alert_alert (imports : list string) (title message : string)
  : Ui unit :=
  if in_scope imports "Alert"
  then ui_emit (UiAlert title message)
  else ui_throw (ReferenceError "Alert").

(** A call of a function of [AuthContext] that the environment lets resolve
    or reject: the call is recorded, then its result is that of the
    environment. *)
Definition ui_call (call : UiEvent) (result : JsError + unit) : Ui unit :=
  ui_emit call ;>
  match result with
  | inl e => ui_throw e
  | inr _ => ui_ret tt
  end.

(** [!s] for a string. *)
Definition is_empty (s : string) : bool :=
  match s with
  | EmptyString => true
  | String _ _ => false
  end.

(** *** The sign-up screen ([handleSignUp]) *)

Module SignUp.

Definition react_native_imports : list string :=
  ["View"; "Text"; "TextInput"; "TouchableOpacity"; "StyleSheet";
   "KeyboardAvoidingView"; "Platform"; "ScrollView"; "Alert"].

(** [signUp_result] is what [await signUp(email, password, name)] does. *)
Definition handleSignUp (name email password : string)
  (signUp_result : JsError + unit) : Ui unit :=
  if is_empty name || is_empty email || is_empty password then
    ui_Alert_alert react_native_imports "Error" "Please fill in all fields"
  else if Z.of_nat (String.length password) <? 6 then
    ui_Alert_alert react_native_imports "Error"
      "Password must be at least 6 characters"
  else
    ui_emit (UiSetLoading true) ;>
    ui_try_finally
      (ui_try_catch
         (ui_call (UiSignUp email password name) signUp_result ;>
          ui_emit (UiRouterReplace "/home"))
         (fun error =>
            ui_Alert_alert react_native_imports "Sign Up Failed"
              (error_message error)))
      (ui_emit (UiSetLoading false)).

End SignUp.

(** *** The player list: loading and filtering the roster *)

(** [`Bearer ${user?.token}`]. *)
Definition bearer_optional (user : option User) : string :=
  "Bearer " ++ match user with
               | Some u => token u
               | None => "undefined"
               end.

(** [fetchPlayers] (lines 43-61). *)
Definition fetchPlayers (user : option User) (reply : NetReply (list Player))
  : Ui unit :=
  ui_emit (UiSetLoading true) ;>
  ui_try_finally
    (ui_try_catch
       (response <~
          ui_fetch (mkRequest (Backend "/api/players") GET
                      [("Authorization", bearer_optional user)] None) reply ;>
        if ok response then
          data <~ ui_await_json response ;>
          ui_emit (UiSetPlayers data)
        else ui_ret tt)
       (fun error => ui_emit (UiConsoleError "Failed to fetch players:" error)))
    (ui_emit (UiSetLoading false)).

(** The two pieces of state of the list that [fetchPlayers] writes. *)
Record RosterState : Type := mkRosterState {
  rs_players : list Player;
  rs_loading : bool
}.

Definition apply_ui_event (st : RosterState) (ev : UiEvent) : RosterState :=
  match ev with
  | UiSetPlayers data => mkRosterState data (rs_loading st)
  | UiSetLoading b => mkRosterState (rs_players st) b
  | _ => st
  end.

Definition ui_after {A : Type} (st : RosterState) (m : Ui A) : RosterState :=
  fold_left apply_ui_event (fst m) st.

Definition is_UiFetch (ev : UiEvent) : bool :=
  match ev with
  | UiFetch _ => true
  | _ => false
  end.

Definition is_UiAlert (ev : UiEvent) : bool :=
  match ev with
  | UiAlert _ _ => true
  | _ => false
  end.

Definition is_UiSignUp (ev : UiEvent) : bool :=
  match ev with
  | UiSignUp _ _ _ => true
  | _ => false
  end.

Definition is_UiRouterReplace (ev : UiEvent) : bool :=
  match ev with
  | UiRouterReplace _ => true
  | _ => false
  end.

(** [s.includes(sub)]. *)
Fixpoint includes (s sub : string) : bool :=
  if prefix sub s then true
  else match s with
       | EmptyString => false
       | String _ s' => includes s' sub
       end.

(** The object literal [posMap] of [applyFilters]. *)
Definition posMap : list (string * string) :=
  [("setter", "S"); ("outsideHitter", "OH"); ("oppositeHitter", "OPP");
   ("middleBlocker", "MB"); ("libero", "L"); ("defensiveSpecialist", "DS")].

(** The own property [key] of an object literal with string values. *)
Fixpoint lookup (key : string) (m : list (string * string)) : option string :=
  match m with
  | [] => None
  | (k, v) :: m' => if String.eqb key k then Some v else lookup key m'
  end.

(** The properties every object inherits from [Object.prototype]. *)
Definition Object_prototype_properties : list string :=
  ["constructor"; "__defineGetter__"; "__defineSetter__"; "hasOwnProperty";
   "__lookupGetter__"; "__lookupSetter__"; "isPrototypeOf";
   "propertyIsEnumerable"; "toString"; "valueOf"; "__proto__";
   "toLocaleString"].

(** What [posMap[filterPosition] || filterPosition] evaluates to: a string,
    or one of the inherited values (a function, or the prototype itself for
    [__proto__]), which are truthy and are not strings. *)
Inductive Abbreviation : Type :=
| AbbrString (s : string)
| AbbrInherited.

(** [posMap[filterPosition] || filterPosition]: the own property first, then
    the inherited ones, then the fallback. *)
Definition filter_abbr (filterPosition : string) : Abbreviation :=
  match lookup filterPosition posMap with
  | Some EmptyString => AbbrString filterPosition
  | Some abbr => AbbrString abbr
  | None =>
      if existsb (String.eqb filterPosition) Object_prototype_properties
      then AbbrInherited
      else AbbrString filterPosition
  end.

(** [p.position === abbr]. *)
Definition position_is (abbr : Abbreviation) (p : Player) : bool :=
  match abbr with
  | AbbrString a => String.eqb (position p) a
  | AbbrInherited => false
  end.

(** The string a position key is in a route parameter. *)
Definition key_name (pos : PositionKey) : string :=
  match pos with
  | Ksetter => "setter"
  | KoutsideHitter => "outsideHitter"
  | KoppositeHitter => "oppositeHitter"
  | KmiddleBlocker => "middleBlocker"
  | Klibero => "libero"
  | KdefensiveSpecialist => "defensiveSpecialist"
  end.

(** [array.sort(compare)]: the sort is stable, so with a comparator that
    orders the elements consistently the result is the one of inserting each
    element, from the last to the first, before the first element it does not
    come after. *)
Fixpoint insert_by {A : Type} (compare : A -> A -> Z) (x : A) (l : list A)
  : list A :=
  match l with
  | [] => [x]
  | y :: l' =>
      if compare x y <=? 0 then x :: y :: l' else y :: insert_by compare x l'
  end.

Definition sort_by {A : Type} (compare : A -> A -> Z) (l : list A) : list A :=
  fold_right (insert_by compare) [] l.

Section ApplyFilters.

(** [String.prototype.toLowerCase] and [String.prototype.localeCompare]
    belong to the JavaScript engine and its locale data. *)
Variable toLowerCase : string -> string.
Variable localeCompare : string -> string -> Z.

(** The predicate of the search filter. *)
Definition search_matches (search : string) (p : Player) : bool :=
  includes (toLowerCase (name p)) (toLowerCase search)
  || includes (toLowerCase (teamName p)) (toLowerCase search).

(** [applyFilters] (lines 63-98): the list handed to [setFilteredPlayers]. *)
Definition applyFilters (players : list Player)
  (search filterPosition sortBy : string) : list Player :=
  let filtered := players in
  let filtered :=
    if negb (is_empty search)
    then filter (search_matches search) filtered
    else filtered in
  let filtered :=
    if negb (is_empty filterPosition) then
      let abbr := filter_abbr filterPosition in
      filter (fun p => position_is abbr p) filtered
    else filtered in
  let filtered :=
    if String.eqb sortBy "name" then
      sort_by (fun a b => localeCompare (name a) (name b)) filtered
    else if String.eqb sortBy "creditCost" then
      sort_by (fun a b => creditCost b - creditCost a) filtered
    else filtered in
  filtered.

End ApplyFilters.

(** The abbreviation the team builder shows for a position. *)
Definition position_abbr (pos : PositionKey) : string :=
  match find (fun info => PositionKey_eqb (TeamBuilder.key info) pos)
             TeamBuilder.POSITIONS with
  | Some info => TeamBuilder.abbr info
  | None => EmptyString
  end.

(** Lower case for the letters A to Z, the other characters unchanged: what
    [toLowerCase] does on text without other capitals. *)
Definition ascii_lower (c : ascii) : ascii :=
  let n := nat_of_ascii c in
  if (Nat.leb 65 n && Nat.leb n 90)%bool then ascii_of_nat (n + 32) else c.

Fixpoint string_lower (s : string) : string :=
  match s with
  | EmptyString => EmptyString
  | String c s' => String (ascii_lower c) (string_lower s')
  end.

(** Comparison of the character codes, as a comparator. *)
Definition code_compare (a b : string) : Z :=
  match String.compare a b with
  | Lt => -1
  | Eq => 0
  | Gt => 1
  end.

(** A player passes the two filters of [applyFilters]: the search, when
    there is one, finds its text in the name or in the team name, and the
    position filter, when there is one, evaluates to the player's
    position. *)
Definition passes_filters (toLowerCase : string -> string)
  (search filterPosition : string) (p : Player) : bool :=
  (is_empty search || search_matches toLowerCase search p)
  && (is_empty filterPosition
      || position_is (filter_abbr filterPosition) p).

Definition roster : list Player :=
  [mkPlayer "r1" "Ana Ace" 7 "S" "Austin" 20 "bio" "img" noStats;
   mkPlayer "r2" "Bea Block" 9 "MB" "Omaha" 30 "bio" "img" noStats;
   mkPlayer "r3" "Cy Set" 3 "S" "Atlanta" 25 "bio" "img" noStats;
   mkPlayer "r4" "Di Dig" 1 "L" "Austin" 10 "bio" "img" noStats].

(** * Properties *)

(** Case analysis on what the network and the body of the response do. *)
Ltac case_reply reply :=
  destruct reply as [?e|[[|] [?e|[| ?b | ?n | ?s | ?items | ?props]]]].

Ltac case_typed_reply reply :=
  destruct reply as [?e|[[|] [?e|?data]]].

(** ** The recomputation *)

Lemma calculateCredits_total (l : Lineup) :
  credits_creditsUsed (calculateCredits l) = occupied_cost l.
Proof.
  unfold calculateCredits, occupied_cost, positions, slot_cost; simpl.
  destruct (setter l), (outsideHitter l), (oppositeHitter l),
    (middleBlocker l), (libero l), (defensiveSpecialist l); lia.
Qed.

Lemma calculateCredits_remaining (l : Lineup) :
  credits_remaining (calculateCredits l)
  = 100 - credits_creditsUsed (calculateCredits l).
Proof. reflexivity. Qed.

Lemma get_set_slot (l : Lineup) (pos pos' : PositionKey) (player : Slot) :
  get_slot (set_slot l pos player) pos'
  = if PositionKey_eqb pos' pos then player else get_slot l pos'.
Proof. destruct pos, pos'; reflexivity. Qed.

Lemma get_slot_spread (l : Lineup) (c : Credits) (pos : PositionKey) :
  get_slot (spread_credits l c) pos = get_slot l pos.
Proof. destruct pos; reflexivity. Qed.

Lemma occupied_cost_spread (l : Lineup) (c : Credits) :
  occupied_cost (spread_credits l c) = occupied_cost l.
Proof. reflexivity. Qed.

Lemma occupied_cost_slots (l : Lineup) :
  occupied_cost l
  = fold_right Z.add 0 (map (fun pos => slot_cost (get_slot l pos)) positions).
Proof. unfold occupied_cost; simpl; lia. Qed.

Lemma PositionKey_eqb_eq (a b : PositionKey) :
  PositionKey_eqb a b = true <-> a = b.
Proof. destruct a, b; simpl; split; congruence. Qed.

(** What one assignment yields, slot by slot and for the derived fields. *)
Lemma setPlayerToPosition_lineup_spec
  (lineup : Lineup) (pos : PositionKey) (player : option Player) :
  let l' := setPlayerToPosition_lineup lineup pos player in
  (forall pos', get_slot l' pos'
                = if PositionKey_eqb pos' pos then of_nullable player
                  else get_slot lineup pos')
  /\ creditsUsed l' = occupied_cost l'
  /\ remaining l' = 100 - creditsUsed l'.
Proof.
  unfold setPlayerToPosition_lineup; cbv zeta.
  split; [|split].
  - intros pos'. now rewrite get_slot_spread, get_set_slot.
  - rewrite occupied_cost_spread. cbn [spread_credits creditsUsed].
    apply calculateCredits_total.
  - reflexivity.
Qed.

(** The cost of the slots when one of them is replaced. *)
Lemma occupied_cost_set_slot
  (l : Lineup) (pos : PositionKey) (player : Slot) :
  occupied_cost (set_slot l pos player)
  = occupied_cost l - slot_cost (get_slot l pos) + slot_cost player.
Proof. destruct pos; unfold occupied_cost; simpl; lia. Qed.

(** A step of [assign_all] is one assignment on the current lineup. *)
Lemma assign_step (lineup : Lineup) (call : PositionKey * option Player) :
  st_lineup
    (after (mkTeamState lineup false)
           (setPlayerToPosition lineup (fst call) (snd call)))
  = setPlayerToPosition_lineup lineup (fst call) (snd call).
Proof. reflexivity. Qed.

Lemma assign_all_snoc
  (calls : list (PositionKey * option Player)) (call : PositionKey * option Player) :
  assign_all (calls ++ [call])%list
  = setPlayerToPosition_lineup (assign_all calls) (fst call) (snd call).
Proof. unfold assign_all. now rewrite fold_left_app. Qed.

(** Every lineup a sequence of assignments reaches has freshly computed
    derived fields. *)
Lemma assign_all_fresh (calls : list (PositionKey * option Player)) :
  creditsUsed (assign_all calls) = occupied_cost (assign_all calls)
  /\ remaining (assign_all calls) = 100 - creditsUsed (assign_all calls).
Proof.
  induction calls as [|call calls _] using rev_ind.
  - split; reflexivity.
  - rewrite assign_all_snoc.
    apply (setPlayerToPosition_lineup_spec (assign_all calls)).
Qed.

(** ** Sequences of assignments *)

(** C2. After every call of every sequence of [setPlayerToPosition] calls
    that starts from the initial empty lineup (that is, after each prefix of
    the sequence), [creditsUsed] is the sum of [creditCost] over the occupied
    slots, an absent slot counting for zero, and [remaining] is
    [100 - creditsUsed]. *)
Theorem assign_sequence_credits
  (calls : list (PositionKey * option Player)) (k : nat) :
  let lineup := assign_all (firstn k calls) in
  creditsUsed lineup = occupied_cost lineup
  /\ remaining lineup = 100 - creditsUsed lineup.
Proof. cbv zeta. apply assign_all_fresh. Qed.

(** C4. For every position key and every player or [null],
    [setPlayerToPosition] returns normally whatever the budget, and its whole
    effect is a single call of [setLineup]: the lineup it stores has the
    argument in the chosen slot, the other five slots as before,
    [creditsUsed] equal to the sum of [creditCost] over the six slots and
    [remaining] equal to 100 minus that sum; and [remaining] does become
    negative, as on a full lineup of cost 100 whose 10-credit libero is
    replaced by a 30-credit player. *)
Theorem setPlayerToPosition_unchecked_atomic :
  (forall (lineup : Lineup) (pos : PositionKey) (player : option Player),
      let m := setPlayerToPosition lineup pos player in
      outcome m = inr tt
      /\ exists l',
          trace m = [SetLineup l']
          /\ (forall pos', get_slot l' pos'
                           = if PositionKey_eqb pos' pos then of_nullable player
                             else get_slot lineup pos')
          /\ creditsUsed l'
             = fold_right Z.add 0
                 (map (fun pos' => slot_cost (get_slot l' pos')) positions)
          /\ remaining l' = 100 - creditsUsed l')
  /\ (let st := after (mkTeamState fullLineup false)
                      (setPlayerToPosition fullLineup Klibero (Some p30)) in
      creditsUsed (st_lineup st) = 120 /\ remaining (st_lineup st) = -20).
Proof.
  split.
  - intros lineup pos player m. split; [reflexivity|].
    exists (setPlayerToPosition_lineup lineup pos player).
    split; [reflexivity|].
    destruct (setPlayerToPosition_lineup_spec lineup pos player) as (Hs & Hc & Hr).
    repeat split; auto.
    now rewrite <- occupied_cost_slots.
  - split; reflexivity.
Qed.

(** C7. In a lineup reached by assignments from the initial one, if a slot
    holds a player then assigning [null] to that slot lowers [creditsUsed] by
    exactly that player's [creditCost] and raises [remaining] by the same
    amount. *)
Theorem clear_slot_refunds_cost
  (calls : list (PositionKey * option Player)) (pos : PositionKey) (p : Player)
  (Hocc : get_slot (assign_all calls) pos = Obj p) :
  let before := assign_all calls in
  let cleared := assign_all (calls ++ [(pos, None)])%list in
  creditsUsed cleared = creditsUsed before - creditCost p
  /\ remaining cleared = remaining before + creditCost p.
Proof.
  cbv zeta. rewrite assign_all_snoc; cbn [fst snd].
  destruct (assign_all_fresh calls) as (Hc & Hr).
  destruct (setPlayerToPosition_lineup_spec (assign_all calls) pos None)
    as (_ & Hc' & Hr').
  cbv zeta in Hc', Hr'.
  assert (E : creditsUsed (setPlayerToPosition_lineup (assign_all calls) pos None)
              = creditsUsed (assign_all calls) - creditCost p).
  { rewrite Hc', Hc. unfold setPlayerToPosition_lineup.
    rewrite occupied_cost_spread, occupied_cost_set_slot, Hocc. simpl. lia. }
  split; [exact E|]. rewrite Hr', E, Hr. lia.
Qed.

Lemma clear_slot_refunds_cost_witness :
  get_slot (assign_all fullCalls) Klibero = Obj p10a
  /\ creditsUsed (assign_all (fullCalls ++ [(Klibero, None)])%list)
     = creditsUsed (assign_all fullCalls) - creditCost p10a
  /\ remaining (assign_all (fullCalls ++ [(Klibero, None)])%list)
     = remaining (assign_all fullCalls) + creditCost p10a.
Proof.
  split; [reflexivity|].
  apply (clear_slot_refunds_cost fullCalls Klibero p10a). reflexivity.
Defined.

(** C10. No deduplication: assigning one player to two different positions,
    starting from the empty lineup, leaves that player in both slots and
    counts the [creditCost] twice in [creditsUsed]. *)
Theorem same_player_two_slots
  (p : Player) (pos1 pos2 : PositionKey) (Hdiff : pos1 <> pos2) :
  let lineup := assign_all [(pos1, Some p); (pos2, Some p)] in
  get_slot lineup pos1 = Obj p
  /\ get_slot lineup pos2 = Obj p
  /\ creditsUsed lineup = 2 * creditCost p
  /\ remaining lineup = 100 - 2 * creditCost p.
Proof.
  cbv zeta.
  destruct pos1, pos2; try congruence;
    unfold assign_all; cbn -[Z.add Z.sub Z.mul]; repeat split; lia.
Qed.

Lemma same_player_two_slots_witness :
  Ksetter <> Klibero
  /\ get_slot (assign_all [(Ksetter, Some p30); (Klibero, Some p30)]) Ksetter
     = Obj p30
  /\ get_slot (assign_all [(Ksetter, Some p30); (Klibero, Some p30)]) Klibero
     = Obj p30
  /\ creditsUsed (assign_all [(Ksetter, Some p30); (Klibero, Some p30)])
     = 2 * creditCost p30
  /\ remaining (assign_all [(Ksetter, Some p30); (Klibero, Some p30)])
     = 100 - 2 * creditCost p30.
Proof.
  split; [discriminate|].
  apply (same_player_two_slots p30 Ksetter Klibero). discriminate.
Defined.

(** ** The identity [creditsUsed + remaining = 100] *)

Lemma budget_identity_initial : budget_identity (st_lineup initialState).
Proof. reflexivity. Qed.

Lemma budget_identity_assign
  (user : option User) (st : TeamState) (pos : PositionKey)
  (player : option Player) :
  budget_identity (st_lineup (perform user st (DoSetPlayerToPosition pos player))).
Proof. unfold budget_identity; cbn -[Z.add Z.sub]. lia. Qed.

Lemma save_keeps_lineup
  (user : option User) (st : TeamState) (reply : NetReply SaveError) :
  st_lineup (perform user st (DoSaveLineup reply)) = st_lineup st.
Proof.
  destruct user as [u|]; [|reflexivity].
  case_reply reply; reflexivity.
Qed.

(** A load keeps the identity when the payload satisfies it with a
    [remaining] other than zero. *)
Lemma budget_identity_load
  (u : User) (st : TeamState) (data : LineupData) (c r : Z) :
  data_creditsUsed data = Some c -> data_remaining data = Some r ->
  c + r = 100 -> r <> 0 ->
  budget_identity (st_lineup (perform (Some u) st (DoLoadLineup (okReply data)))).
Proof.
  intros Hc Hr Hsum Hnz. unfold budget_identity; cbn -[Z.add].
  rewrite Hc, Hr; unfold or_number.
  destruct (Z.eqb_spec c 0), (Z.eqb_spec r 0); lia.
Qed.

(** C1. The identity [creditsUsed + remaining = 100] does not survive a
    successful [loadLineup] of a lineup that uses the whole budget: after
    filling the six slots for 20, 20, 20, 20, 10 and 10 credits, saving, and
    loading the saved lineup back (payload [creditsUsed: 100, remaining: 0]),
    the state has [creditsUsed = 100] and [remaining = 100], so the sum is
    200. *)
Theorem reload_full_budget_breaks_identity :
  let st := perform_all (Some someUser) initialState fill_save_reload in
  (forall pos, get_slot (st_lineup st) pos = get_slot fullLineup pos)
  /\ creditsUsed (st_lineup st) = 100
  /\ remaining (st_lineup st) = 100
  /\ ~ budget_identity (st_lineup st).
Proof.
  cbv zeta. split; [intros []; reflexivity|].
  split; [reflexivity|]. split; [reflexivity|].
  unfold budget_identity. vm_compute. discriminate.
Qed.

(** ** Loading *)

(** C5. On an [ok] response [loadLineup] stores the six slots of the payload
    and takes both derived fields from the payload with the falsy fallback:
    [creditsUsed] is the payload's value when that is a number other than
    zero and 0 otherwise, [remaining] is the payload's value when that is a
    number other than zero and 100 otherwise (so a payload [remaining] of 0
    gives 100); the stored derived fields depend on the payload's derived
    fields alone, not on its slots. *)
Theorem load_takes_derived_fields_from_payload
  (u : User) (st : TeamState) (data : LineupData) :
  let loaded d := st_lineup (after st (loadLineup (Some u) (okReply d))) in
  (forall pos, get_slot (loaded data) pos = data_slot data pos)
  /\ (forall n, data_creditsUsed data = Some n -> n <> 0 ->
                creditsUsed (loaded data) = n)
  /\ (data_creditsUsed data = None \/ data_creditsUsed data = Some 0 ->
      creditsUsed (loaded data) = 0)
  /\ (forall n, data_remaining data = Some n -> n <> 0 ->
                remaining (loaded data) = n)
  /\ (data_remaining data = None \/ data_remaining data = Some 0 ->
      remaining (loaded data) = 100)
  /\ (forall data',
         data_creditsUsed data' = data_creditsUsed data ->
         data_remaining data' = data_remaining data ->
         creditsUsed (loaded data') = creditsUsed (loaded data)
         /\ remaining (loaded data') = remaining (loaded data)).
Proof.
  cbv zeta. cbn -[or_number].
  split; [intros []; reflexivity|].
  split.
  { intros n -> Hn. unfold or_number. now destruct (Z.eqb_spec n 0). }
  split.
  { intros [-> | ->]; reflexivity. }
  split.
  { intros n -> Hn. unfold or_number. now destruct (Z.eqb_spec n 0). }
  split.
  { intros [-> | ->]; reflexivity. }
  intros data' -> ->. split; reflexivity.
Qed.

Lemma load_takes_derived_fields_from_payload_witness :
  data_remaining fullData = Some 0
  /\ remaining (st_lineup (after initialState
                             (loadLineup (Some someUser) (okReply fullData))))
     = 100
  /\ creditsUsed (st_lineup (after initialState
                               (loadLineup (Some someUser) (okReply fullData))))
     = 100.
Proof.
  destruct (load_takes_derived_fields_from_payload someUser initialState fullData)
    as (_ & Hc & _ & _ & Hr & _).
  split; [reflexivity|]. split.
  - apply Hr. right. reflexivity.
  - apply (Hc 100); [reflexivity | lia].
Defined.

(** C8 as stated fails on a response that is not [ok]: the state is left
    alone and nothing is surfaced, but nothing is written to the console
    either. *)
Lemma failed_load_not_ok_is_not_logged :
  load_fails (Replies (parsed false fullData))
  /\ ~ failed_load_logged_and_ignored (Some someUser) initialState
         (Replies (parsed false fullData)).
Proof.
  split; [reflexivity|].
  intros (_ & Hlog & _). apply Hlog. reflexivity.
Qed.

(** C8, amended. If [loadLineup] fails, because [fetch] rejects or because
    the response is not [ok], the whole state (six slots, both derived
    fields, the saving flag) is left unchanged, the call resolves normally
    and no alert is shown; with a signed-in user, a rejected [fetch] is
    written to the console once, as ["Failed to load lineup:"] with the
    error, and a response that is not [ok] is not logged at all. *)
Theorem failed_load_keeps_state
  (user : option User) (st : TeamState) (reply : NetReply LineupData)
  (Hfail : load_fails reply) :
  let m := loadLineup user reply in
  after st m = st
  /\ outcome m = inr tt
  /\ alerts m = []
  /\ (user <> None ->
      console_log m
      = match reply with
        | Rejects e => [ConsoleError "Failed to load lineup:" e]
        | Replies _ => []
        end).
Proof.
  cbv zeta. destruct st as [l s].
  destruct user as [u|].
  - destruct reply as [e|[o j]].
    + repeat split.
    + simpl in Hfail; subst o. repeat split.
  - repeat split. congruence.
Qed.

Lemma failed_load_keeps_state_witness :
  load_fails (Rejects (TypeError "Network request failed"))
  /\ after (mkTeamState fullLineup false)
           (loadLineup (Some someUser)
              (Rejects (TypeError "Network request failed")))
     = mkTeamState fullLineup false
  /\ outcome (loadLineup (Some someUser)
                (Rejects (TypeError "Network request failed"))) = inr tt
  /\ alerts (loadLineup (Some someUser)
               (Rejects (TypeError "Network request failed"))) = []
  /\ (Some someUser <> None ->
      console_log (loadLineup (Some someUser)
                     (Rejects (TypeError "Network request failed")))
      = [ConsoleError "Failed to load lineup:"
           (TypeError "Network request failed")]).
Proof.
  split; [exact I|].
  apply (failed_load_keeps_state (Some someUser) (mkTeamState fullLineup false)
           (Rejects (TypeError "Network request failed"))).
  exact I.
Defined.

(** ** Saving *)




(** ** The save gate of the team builder *)

(** [canSave] is the test that no slot is [null] and the budget holds. *)
Lemma canSave_gate (lineup : Lineup) :
  TeamBuilder.canSave lineup = true <-> canSave_gate_holds lineup.
Proof.
  unfold TeamBuilder.canSave, canSave_gate_holds, no_null_slot; cbv zeta.
  rewrite andb_true_iff, Z.geb_le. split.
  - intros [Hall Hrem]; split; [|exact Hrem].
    cbn in Hall.
    destruct (setter lineup) eqn:E1, (outsideHitter lineup) eqn:E2,
      (oppositeHitter lineup) eqn:E3, (middleBlocker lineup) eqn:E4,
      (libero lineup) eqn:E5, (defensiveSpecialist lineup) eqn:E6;
      try discriminate Hall;
      intros []; cbn; congruence.
  - intros [Hall Hrem]; split; [|exact Hrem].
    cbn.
    pose proof (Hall Ksetter) as H1. pose proof (Hall KoutsideHitter) as H2.
    pose proof (Hall KoppositeHitter) as H3.
    pose proof (Hall KmiddleBlocker) as H4.
    pose proof (Hall Klibero) as H5.
    pose proof (Hall KdefensiveSpecialist) as H6.
    cbn in H1, H2, H3, H4, H5, H6.
    destruct (setter lineup), (outsideHitter lineup), (oppositeHitter lineup),
      (middleBlocker lineup), (libero lineup), (defensiveSpecialist lineup);
      solve [reflexivity | congruence].
Qed.

(** Occupied slots are not [null]. *)
Lemma save_gate_canSave (lineup : Lineup) :
  save_gate lineup -> TeamBuilder.canSave lineup = true.
Proof.
  intros [Hall Hrem]. apply canSave_gate. split; [|exact Hrem].
  intros pos Hnull. destruct (Hall pos) as [p Hp]. congruence.
Qed.

(** Without [undefined] slots, [canSave] tests that all six slots are
    occupied. *)
Lemma canSave_gate_occupied (lineup : Lineup) :
  no_undefined_slot lineup -> (canSave_gate_holds lineup <-> save_gate lineup).
Proof.
  intros Hdef. split.
  - intros [Hnull Hrem]. split; [|exact Hrem].
    intros pos. specialize (Hnull pos). specialize (Hdef pos).
    destruct (get_slot lineup pos) as [| |p]; [congruence|congruence|].
    now exists p.
  - intros Hg. apply canSave_gate, save_gate_canSave, Hg.
Qed.

(** A lineup reached by assignments has no [undefined] slot. *)
Lemma assign_all_no_undefined (calls : list (PositionKey * option Player)) :
  no_undefined_slot (assign_all calls).
Proof.
  induction calls as [|[pos player] calls IH] using rev_ind.
  - intros []; discriminate.
  - rewrite assign_all_snoc; cbn [fst snd]. intros pos'.
    destruct (setPlayerToPosition_lineup_spec (assign_all calls) pos player)
      as (Hs & _). cbv zeta in Hs. rewrite Hs.
    destruct (PositionKey_eqb pos' pos); [|apply IH].
    destruct player; discriminate.
Qed.

(** Neither has a lineup loaded from a payload that has the six keys. *)
Lemma loaded_no_undefined (u : User) (st : TeamState) (data : LineupData) :
  (forall pos, data_slot data pos <> Undefined) ->
  no_undefined_slot
    (st_lineup (after st (loadLineup (Some u) (okReply data)))).
Proof. intros H pos. specialize (H pos). destruct pos; exact H. Qed.

(** A payload without the key [libero] leaves that slot [undefined], and the
    gate then passes with five players. *)
Lemma undefined_slot_passes_canSave :
  let data :=
    mkLineupData (Obj p20a) (Obj p20b) (Obj p20c) (Obj p20d) Undefined
                 (Obj p10b) (Some 90) (Some 10) in
  let lineup :=
    st_lineup (after initialState (loadLineup (Some someUser) (okReply data))) in
  get_slot lineup Klibero = Undefined
  /\ TeamBuilder.canSave lineup = true
  /\ network_calls (TeamBuilder.handleSave (Some someUser) lineup
                      (okReply (saveErrorBody None))) <> [].
Proof. cbv zeta. repeat split. vm_compute. discriminate. Qed.

Lemma save_gate_fullLineup : save_gate fullLineup.
Proof.
  split; [|discriminate].
  intros []; cbn; eexists; reflexivity.
Qed.

Lemma no_undefined_fullLineup : no_undefined_slot fullLineup.
Proof. intros []; discriminate. Qed.

Lemma no_undefined_overLineup : no_undefined_slot overLineup.
Proof. intros []; discriminate. Qed.

(** A signed-in save issues exactly one request. *)
Lemma saveLineup_one_request
  (u : User) (lineup : Lineup) (reply : NetReply SaveError) :
  exists req rest,
    trace (saveLineup (Some u) lineup reply)
    = SetSaving true :: Fetch req :: rest
    /\ filter is_fetch rest = [].
Proof.
  case_reply reply; do 2 eexists; split; reflexivity.
Qed.

(** C3 as stated fails when nobody is signed in: the gate passes on a full
    lineup within budget, [handleSave] goes on to [saveLineup], and that
    returns at once without a request. *)
Lemma save_gate_passes_without_request :
  ~ save_attempted_iff_gate None fullLineup (okReply (saveErrorBody None)).
Proof.
  unfold save_attempted_iff_gate. intros [_ H].
  apply (H save_gate_fullLineup). reflexivity.
Qed.

(** What [handleSave] does on either side of the test of [canSave]. *)
Lemma handleSave_by_canSave
  (user : option User) (lineup : Lineup) (reply : NetReply SaveError) :
  let m := TeamBuilder.handleSave user lineup reply in
  (network_calls m <> [] -> canSave_gate_holds lineup)
  /\ (user <> None -> canSave_gate_holds lineup -> network_calls m <> [])
  /\ (~ canSave_gate_holds lineup ->
      network_calls m = []
      /\ outcome m = inr tt
      /\ trace m
         = [if remaining lineup <? 0
            then AlertShown "Budget Exceeded"
                   ("You're over budget by "
                      ++ number_to_string (Z.abs (remaining lineup))
                      ++ " credits!") []
            else AlertShown "Incomplete Lineup"
                   "Please fill all 6 positions before saving." []]).
Proof.
  cbv zeta.
  assert (Hreject : TeamBuilder.canSave lineup = false ->
            TeamBuilder.handleSave user lineup reply
            = ([if remaining lineup <? 0
                then AlertShown "Budget Exceeded"
                       ("You're over budget by "
                          ++ number_to_string (Z.abs (remaining lineup))
                          ++ " credits!") []
                else AlertShown "Incomplete Lineup"
                       "Please fill all 6 positions before saving." []],
               inr tt)).
  { intros Hc. unfold TeamBuilder.handleSave. rewrite Hc. cbn [negb].
    destruct (remaining lineup <? 0); reflexivity. }
  destruct (TeamBuilder.canSave lineup) eqn:Hc.
  - pose proof (proj1 (canSave_gate lineup) Hc) as Hg.
    split; [auto|]. split.
    + intros Hu _. destruct user as [u|]; [|congruence].
      unfold TeamBuilder.handleSave. rewrite Hc. cbn [negb].
      destruct (saveLineup_one_request u lineup reply) as (req & rest & Ht & _).
      unfold network_calls, trace, try_catch, bind in *.
      destruct (saveLineup (Some u) lineup reply) as [t [e|[]]];
        cbn [fst] in Ht; subst t.
      * destruct (Alert_alert TeamBuilder.react_native_imports "Error" _ [])
          as [t' r']. cbn. discriminate.
      * cbn. discriminate.
    + intros Hn; contradiction.
  - assert (Hng : ~ canSave_gate_holds lineup).
    { intros Hg. apply canSave_gate in Hg. congruence. }
    rewrite (Hreject eq_refl).
    split; [|split].
    + intros Hn. exfalso. apply Hn.
      unfold network_calls; cbn. destruct (remaining lineup <? 0); reflexivity.
    + intros _ Hg; contradiction.
    + intros _. repeat split.
      unfold network_calls; cbn. destruct (remaining lineup <? 0); reflexivity.
Qed.

(** C3, amended. For a lineup none of whose slots is [undefined] (every
    lineup reached by assignments, or loaded from a payload that has the six
    slot keys), [handleSave] issues a network request only if all six slots
    are occupied and [remaining >= 0], and with a signed-in user it issues
    one whenever they are; when either condition fails there is no network
    call and the run is a single alert: ["Budget Exceeded"] with the amount
    over budget when [remaining < 0], and ["Incomplete Lineup"] otherwise.
    For any lineup the same holds with "no slot is [null]" in the place of
    "all six slots are occupied", which is what [canSave] tests. *)
Theorem handleSave_gate
  (user : option User) (lineup : Lineup) (reply : NetReply SaveError) :
  let m := TeamBuilder.handleSave user lineup reply in
  let rejection :=
    [if remaining lineup <? 0
     then AlertShown "Budget Exceeded"
            ("You're over budget by "
               ++ number_to_string (Z.abs (remaining lineup))
               ++ " credits!") []
     else AlertShown "Incomplete Lineup"
            "Please fill all 6 positions before saving." []] in
  (no_undefined_slot lineup ->
   (network_calls m <> [] -> save_gate lineup)
   /\ (user <> None -> save_gate lineup -> network_calls m <> [])
   /\ (~ save_gate lineup ->
       network_calls m = [] /\ outcome m = inr tt /\ trace m = rejection))
  /\ (network_calls m <> [] -> canSave_gate_holds lineup)
  /\ (user <> None -> canSave_gate_holds lineup -> network_calls m <> [])
  /\ (~ canSave_gate_holds lineup ->
      network_calls m = [] /\ outcome m = inr tt /\ trace m = rejection).
Proof.
  cbv zeta.
  destruct (handleSave_by_canSave user lineup reply) as (Honly & Hif & Hrej).
  cbv zeta in Honly, Hif, Hrej.
  split; [|split; [exact Honly | split; [exact Hif | exact Hrej]]].
  intros Hdef. pose proof (canSave_gate_occupied lineup Hdef) as Heq.
  split; [|split].
  - intros Hn. apply Heq, Honly, Hn.
  - intros Hu Hg. apply (Hif Hu). apply Heq, Hg.
  - intros Hng. apply Hrej. intros Hg. apply Hng, Heq, Hg.
Qed.

Lemma handleSave_gate_witness :
  (no_undefined_slot fullLineup /\ Some someUser <> None
   /\ save_gate fullLineup
   /\ network_calls (TeamBuilder.handleSave (Some someUser) fullLineup
                       (okReply (saveErrorBody None))) <> [])
  /\ (no_undefined_slot overLineup /\ ~ save_gate overLineup
      /\ trace (TeamBuilder.handleSave (Some someUser) overLineup
                  (okReply (saveErrorBody None)))
         = [AlertShown "Budget Exceeded" "You're over budget by 20 credits!" []]).
Proof.
  assert (Hu : Some someUser <> None) by discriminate.
  assert (Hover : ~ save_gate overLineup).
  { intros [_ H]. simpl in H. lia. }
  split.
  - split; [exact no_undefined_fullLineup|]. split; [exact Hu|].
    split; [exact save_gate_fullLineup|].
    apply (proj1 (handleSave_gate (Some someUser) fullLineup
                    (okReply (saveErrorBody None))));
      [exact no_undefined_fullLineup | exact Hu | exact save_gate_fullLineup].
  - split; [exact no_undefined_overLineup|]. split; [exact Hover|].
    apply (proj1 (handleSave_gate (Some someUser) overLineup
                    (okReply (saveErrorBody None))));
      [exact no_undefined_overLineup | exact Hover].
Defined.

(** ** The budget preview of the player list *)

(** The two branches of [handleSelectPlayer] when a position is supplied.
    The new total is [creditsUsed] minus the cost of the slot's occupant
    (zero if absent) plus the candidate's cost.  Above 100 the run stops at
    the reference to [Alert], which the module does not import: nothing is
    stored and nothing is shown.  Otherwise the run is the assignment
    followed by [router.back()]. *)
Lemma handleSelectPlayer_cases
  (pos : PositionKey) (lineup : Lineup) (player : Player) :
  let newTotal :=
    creditsUsed lineup - slot_cost (get_slot lineup pos) + creditCost player in
  PlayerList.handleSelectPlayer (Some pos) lineup player
  = if newTotal >? 100
    then ([], inl (ReferenceError "Alert"))
    else ([SetLineup (setPlayerToPosition_lineup lineup pos (Some player));
           RouterBack], inr tt).
Proof.
  cbv zeta. unfold PlayerList.handleSelectPlayer; cbv zeta.
  change (PlayerList.currentCost (get_slot lineup pos))
    with (slot_cost (get_slot lineup pos)).
  destruct (_ >? 100); reflexivity.
Qed.

(** Within budget, the selection is the assignment of the candidate. *)
Lemma handleSelectPlayer_within_budget
  (pos : PositionKey) (lineup : Lineup) (player : Player) :
  creditsUsed lineup - slot_cost (get_slot lineup pos) + creditCost player
  <= 100 ->
  trace (PlayerList.handleSelectPlayer (Some pos) lineup player)
  = (trace (setPlayerToPosition lineup pos (Some player)) ++ [RouterBack])%list.
Proof.
  intros H. rewrite handleSelectPlayer_cases; cbv zeta.
  destruct (Z.gtb_spec
              (creditsUsed lineup - slot_cost (get_slot lineup pos)
               + creditCost player) 100); [lia | reflexivity].
Qed.

(** Over budget, [setLineup] is never called. *)
Lemma handleSelectPlayer_over_budget
  (pos : PositionKey) (lineup : Lineup) (player : Player) :
  100 < creditsUsed lineup - slot_cost (get_slot lineup pos) + creditCost player ->
  filter is_setLineup
    (trace (PlayerList.handleSelectPlayer (Some pos) lineup player)) = []
  /\ alerts (PlayerList.handleSelectPlayer (Some pos) lineup player) = [].
Proof.
  intros H. rewrite handleSelectPlayer_cases; cbv zeta.
  destruct (Z.gtb_spec
              (creditsUsed lineup - slot_cost (get_slot lineup pos)
               + creditCost player) 100); [split; reflexivity | lia].
Qed.

(** C6. On the full lineup of cost 100, selecting a 30-credit player for the
    libero slot (held by a 10-credit player) gives the new total
    100 - 10 + 30 = 120 > 100; [handleSelectPlayer] does not assign, but it
    shows no message either: [Alert] is not among the imports of the player
    list, so the run ends with a [ReferenceError] and an empty trace. *)
Theorem over_budget_selection_shows_no_message :
  let m := PlayerList.handleSelectPlayer (Some Klibero) fullLineup p30 in
  creditsUsed fullLineup - slot_cost (get_slot fullLineup Klibero)
    + creditCost p30 = 120
  /\ in_scope PlayerList.react_native_imports "Alert" = false
  /\ outcome m = inl (ReferenceError "Alert")
  /\ alerts m = []
  /\ filter is_setLineup (trace m) = []
  /\ after (mkTeamState fullLineup false) m = mkTeamState fullLineup false.
Proof. cbv zeta. repeat split. Qed.

(** * Further properties of the provider and of the screens *)

(** ** How assignments compose *)

(** X1. Two assignments to the same slot: the second one wins, and the
    state is the one the second assignment alone would have given. *)
Theorem assign_same_slot_last_wins
  (user : option User) (st : TeamState) (pos : PositionKey)
  (p q : option Player) :
  perform user (perform user st (DoSetPlayerToPosition pos p))
          (DoSetPlayerToPosition pos q)
  = perform user st (DoSetPlayerToPosition pos q).
Proof. destruct st as [l s], pos; reflexivity. Qed.

(** X2. Assignments to two different slots commute when the provider
    re-renders between the two calls.  Two calls made from one and the same
    render do not compose at all: both see the lineup that render captured
    and the later [setLineup] replaces the earlier, so only the last call
    takes effect and the order matters. *)
Theorem assign_different_slots_commute
  (user : option User) (st : TeamState) (pos1 pos2 : PositionKey)
  (p q : option Player) (Hdiff : pos1 <> pos2) :
  perform user (perform user st (DoSetPlayerToPosition pos1 p))
          (DoSetPlayerToPosition pos2 q)
  = perform user (perform user st (DoSetPlayerToPosition pos2 q))
            (DoSetPlayerToPosition pos1 p)
  /\ same_render user st
       [DoSetPlayerToPosition pos1 p; DoSetPlayerToPosition pos2 q]
     = perform user st (DoSetPlayerToPosition pos2 q)
  /\ same_render user st
       [DoSetPlayerToPosition pos2 q; DoSetPlayerToPosition pos1 p]
     = perform user st (DoSetPlayerToPosition pos1 p).
Proof.
  split; [|split; reflexivity].
  destruct st as [l s].
  destruct pos1, pos2; try congruence;
    unfold perform, after, run_trace, setPlayerToPosition,
      setPlayerToPosition_lineup, calculateCredits;
    cbn -[Z.add Z.sub]; do 2 f_equal;
    destruct p, q, (setter l), (outsideHitter l), (oppositeHitter l),
      (middleBlocker l), (libero l), (defensiveSpecialist l); cbn; lia.
Qed.

Lemma assign_different_slots_commute_witness :
  Ksetter <> Klibero
  /\ perform None (perform None initialState
                     (DoSetPlayerToPosition Ksetter (Some p20a)))
             (DoSetPlayerToPosition Klibero (Some p10a))
     = perform None (perform None initialState
                       (DoSetPlayerToPosition Klibero (Some p10a)))
               (DoSetPlayerToPosition Ksetter (Some p20a))
  /\ same_render None initialState
       [DoSetPlayerToPosition Ksetter (Some p20a);
        DoSetPlayerToPosition Klibero (Some p10a)]
     = perform None initialState (DoSetPlayerToPosition Klibero (Some p10a))
  /\ same_render None initialState
       [DoSetPlayerToPosition Klibero (Some p10a);
        DoSetPlayerToPosition Ksetter (Some p20a)]
     = perform None initialState (DoSetPlayerToPosition Ksetter (Some p20a)).
Proof.
  split; [discriminate|].
  apply (assign_different_slots_commute None initialState Ksetter Klibero
           (Some p20a) (Some p10a)).
  discriminate.
Defined.

(** A lineup whose derived fields are those of its slots is a fixed point of
    re-assigning to a slot what the slot holds. *)
Lemma reassign_occupant_fresh (l : Lineup) (pos : PositionKey) :
  get_slot l pos <> Undefined ->
  creditsUsed l = occupied_cost l -> remaining l = 100 - creditsUsed l ->
  setPlayerToPosition_lineup l pos (player_of (get_slot l pos)) = l.
Proof.
  intros Hdef Hc Hr.
  assert (Hback : of_nullable (player_of (get_slot l pos)) = get_slot l pos)
    by (destruct (get_slot l pos); [congruence | reflexivity | reflexivity]).
  unfold setPlayerToPosition_lineup; cbv zeta. rewrite Hback.
  assert (Hs : forall x, spread_credits (set_slot l pos (get_slot l pos)) x
                         = spread_credits l x)
    by (intros x; destruct l, pos; reflexivity).
  rewrite Hs.
  assert (Hcc : calculateCredits (set_slot l pos (get_slot l pos))
                = mkCredits (creditsUsed l) (remaining l)).
  { pose proof (calculateCredits_total (set_slot l pos (get_slot l pos))) as Ht.
    rewrite occupied_cost_set_slot in Ht.
    pose proof (calculateCredits_remaining (set_slot l pos (get_slot l pos))) as Hrem.
    destruct (calculateCredits (set_slot l pos (get_slot l pos))) as [cu rem].
    cbn [credits_creditsUsed credits_remaining] in *. f_equal; lia. }
  rewrite Hcc. destruct l; reflexivity.
Qed.

(** X3. Undo: in a lineup reached by assignments, assigning anything to a
    slot and then assigning back what the slot held (the player, or [null])
    restores the lineup exactly, derived fields included. *)
Theorem assign_then_restore
  (calls : list (PositionKey * option Player)) (pos : PositionKey)
  (p : option Player) :
  let before := assign_all calls in
  assign_all (calls ++ [(pos, p); (pos, player_of (get_slot before pos))])%list
  = before.
Proof.
  cbv zeta.
  change (calls ++ [(pos, p); (pos, player_of (get_slot (assign_all calls) pos))])%list
    with (calls ++ [(pos, p)]
            ++ [(pos, player_of (get_slot (assign_all calls) pos))])%list.
  rewrite app_assoc, !assign_all_snoc; cbn [fst snd].
  destruct (assign_all_fresh calls) as (Hc & Hr).
  rewrite <- (reassign_occupant_fresh (assign_all calls) pos
                (assign_all_no_undefined calls pos) Hc Hr) at 3.
  generalize (assign_all calls) as l; intros l.
  destruct l, pos; reflexivity.
Qed.

(** ** The budget preview on lineups built by assignment *)

(** The [creditsUsed] an assignment stores, from the one before it. *)
Lemma assign_delta
  (calls : list (PositionKey * option Player)) (pos : PositionKey)
  (player : option Player) :
  creditsUsed (setPlayerToPosition_lineup (assign_all calls) pos player)
  = creditsUsed (assign_all calls)
    - slot_cost (get_slot (assign_all calls) pos)
    + slot_cost (of_nullable player).
Proof.
  destruct (assign_all_fresh calls) as (Hc & _).
  destruct (setPlayerToPosition_lineup_spec (assign_all calls) pos player)
    as (_ & Hc' & _).
  cbv zeta in Hc'. rewrite Hc', Hc. unfold setPlayerToPosition_lineup.
  now rewrite occupied_cost_spread, occupied_cost_set_slot.
Qed.

(** X4. On a lineup reached by assignments the preview of
    [handleSelectPlayer] is exact: the total it computes is the [creditsUsed]
    the assignment would store, so the candidate is assigned exactly when the
    resulting lineup has [remaining >= 0], and otherwise the lineup is left
    as it is. *)
Theorem selection_preview_exact
  (calls : list (PositionKey * option Player)) (pos : PositionKey)
  (player : Player) :
  let lineup := assign_all calls in
  let target := setPlayerToPosition_lineup lineup pos (Some player) in
  let m := PlayerList.handleSelectPlayer (Some pos) lineup player in
  creditsUsed target
  = creditsUsed lineup - slot_cost (get_slot lineup pos) + creditCost player
  /\ (0 <= remaining target ->
      st_lineup (after (mkTeamState lineup false) m) = target)
  /\ (remaining target < 0 ->
      st_lineup (after (mkTeamState lineup false) m) = lineup).
Proof.
  cbv zeta.
  pose proof (assign_delta calls pos (Some player)) as Hd; cbn [slot_cost of_nullable] in Hd.
  destruct (setPlayerToPosition_lineup_spec (assign_all calls) pos (Some player))
    as (_ & _ & Hr); cbv zeta in Hr.
  split; [exact Hd|].
  rewrite handleSelectPlayer_cases; cbv zeta.
  destruct (Z.gtb_spec
              (creditsUsed (assign_all calls)
               - slot_cost (get_slot (assign_all calls) pos)
               + creditCost player) 100) as [Hgt|Hle];
    split; intros H; try reflexivity; lia.
Qed.

Lemma selection_preview_exact_witness :
  remaining (setPlayerToPosition_lineup (assign_all fullCalls) Klibero (Some p30))
  < 0
  /\ st_lineup
       (after (mkTeamState (assign_all fullCalls) false)
              (PlayerList.handleSelectPlayer (Some Klibero)
                 (assign_all fullCalls) p30))
     = assign_all fullCalls.
Proof.
  assert (H : remaining (setPlayerToPosition_lineup (assign_all fullCalls)
                           Klibero (Some p30)) < 0) by reflexivity.
  split; [exact H|].
  apply (selection_preview_exact fullCalls Klibero p30). exact H.
Defined.

Lemma select_all_snoc
  (choices : list (PositionKey * Player)) (choice : PositionKey * Player) :
  select_all (choices ++ [choice])%list
  = st_lineup
      (after (mkTeamState (select_all choices) false)
             (PlayerList.handleSelectPlayer (Some (fst choice))
                (select_all choices) (snd choice))).
Proof. unfold select_all. now rewrite fold_left_app. Qed.

(** X5. A lineup built from the empty one by selections in the player list
    alone is never over budget: after any sequence of selections
    [creditsUsed] is the sum of the costs of the occupied slots, it is at
    most 100, and [remaining = 100 - creditsUsed >= 0]. *)
Theorem selections_stay_within_budget (choices : list (PositionKey * Player)) :
  let lineup := select_all choices in
  creditsUsed lineup = occupied_cost lineup
  /\ remaining lineup = 100 - creditsUsed lineup
  /\ creditsUsed lineup <= 100
  /\ 0 <= remaining lineup.
Proof.
  cbv zeta.
  induction choices as [|[pos player] choices IH] using rev_ind.
  - repeat split; cbn; lia.
  - rewrite select_all_snoc; cbn [fst snd].
    destruct IH as (Hc & Hr & Hle & Hge).
    rewrite handleSelectPlayer_cases; cbv zeta.
    destruct (Z.gtb_spec
                (creditsUsed (select_all choices)
                 - slot_cost (get_slot (select_all choices) pos)
                 + creditCost player) 100) as [Hgt|Hok].
    + repeat split; assumption.
    + change (st_lineup
                (after (mkTeamState (select_all choices) false)
                   ([SetLineup (setPlayerToPosition_lineup (select_all choices)
                                  pos (Some player)); RouterBack], inr tt)))
        with (setPlayerToPosition_lineup (select_all choices) pos (Some player)).
      destruct (setPlayerToPosition_lineup_spec (select_all choices) pos
                  (Some player)) as (_ & Hc' & Hr'); cbv zeta in Hc', Hr'.
      assert (E : creditsUsed (setPlayerToPosition_lineup (select_all choices)
                                 pos (Some player))
                  = creditsUsed (select_all choices)
                    - slot_cost (get_slot (select_all choices) pos)
                    + creditCost player).
      { rewrite Hc', Hc. unfold setPlayerToPosition_lineup.
        rewrite occupied_cost_spread, occupied_cost_set_slot. reflexivity. }
      repeat split; try assumption; lia.
Qed.

(** ** The save request and what the team builder reports *)

(** X6. With a signed-in user [saveLineup] issues exactly one request,
    whatever the lineup (it has no gate of its own): a [POST] to
    [/api/lineup/save] with the bearer token of the user, whose body holds
    for each position the [id] of the occupant, and [null] for an empty slot
    (a [null] or an [undefined] one) or an occupant whose [id] is the empty
    string; the body does not depend on [creditsUsed] or [remaining]. *)
Theorem saveLineup_request
  (u : User) (lineup : Lineup) (reply : NetReply SaveError) :
  exists b,
    network_calls (saveLineup (Some u) lineup reply)
    = [Fetch (mkRequest (Backend "/api/lineup/save") POST
                [("Content-Type", "application/json");
                 ("Authorization", "Bearer " ++ token u)]
                (Some b))]
    /\ (forall pos p, get_slot lineup pos = Obj p -> id p <> EmptyString ->
                      body_slot b pos = Some (id p))
    /\ (forall pos p, get_slot lineup pos = Obj p -> id p = EmptyString ->
                      body_slot b pos = None)
    /\ (forall pos, get_slot lineup pos = Null \/ get_slot lineup pos = Undefined ->
                    body_slot b pos = None)
    /\ (forall c r,
           network_calls
             (saveLineup (Some u) (spread_credits lineup (mkCredits c r)) reply)
           = network_calls (saveLineup (Some u) lineup reply)).
Proof.
  exists (mkSaveBody (id_or_null (setter lineup))
            (id_or_null (outsideHitter lineup))
            (id_or_null (oppositeHitter lineup))
            (id_or_null (middleBlocker lineup))
            (id_or_null (libero lineup))
            (id_or_null (defensiveSpecialist lineup))).
  assert (Hb : forall pos,
             body_slot
               (mkSaveBody (id_or_null (setter lineup))
                  (id_or_null (outsideHitter lineup))
                  (id_or_null (oppositeHitter lineup))
                  (id_or_null (middleBlocker lineup))
                  (id_or_null (libero lineup))
                  (id_or_null (defensiveSpecialist lineup))) pos
             = id_or_null (get_slot lineup pos))
    by (intros []; reflexivity).
  split; [case_reply reply; reflexivity|].
  split; [|split; [|split]].
  - intros pos p Hp Hid. rewrite Hb, Hp. unfold id_or_null.
    destruct (id p); [congruence | reflexivity].
  - intros pos p Hp Hid. rewrite Hb, Hp. unfold id_or_null. now rewrite Hid.
  - intros pos [Hp|Hp]; now rewrite Hb, Hp.
  - intros c r. case_reply reply; reflexivity.
Qed.

Lemma saveLineup_request_witness :
  exists b,
    network_calls (saveLineup (Some someUser) fullLineup
                     (okReply (saveErrorBody None)))
    = [Fetch (mkRequest (Backend "/api/lineup/save") POST
                [("Content-Type", "application/json");
                 ("Authorization", "Bearer tok")]
                (Some b))]
    /\ body_slot b Klibero = Some "p5".
Proof.
  destruct (saveLineup_request someUser fullLineup (okReply (saveErrorBody None)))
    as (b & Hreq & Hid & _).
  exists b. split; [exact Hreq|].
  apply (Hid Klibero p10a); [reflexivity | discriminate].
Defined.

(** X7. [handleSave] never rejects and always ends by showing exactly one
    alert; whatever the user, the lineup and the reply, it leaves the state of
    the provider as it found it (the saving flag, raised during the request,
    is down again). *)
Theorem handleSave_resolves_with_one_alert
  (user : option User) (lineup : Lineup) (reply : NetReply SaveError) :
  let m := TeamBuilder.handleSave user lineup reply in
  outcome m = inr tt
  /\ (exists title message, alerts m = [AlertShown title message []])
  /\ (exists before title message,
         trace m = (before ++ [AlertShown title message []])%list)
  /\ after (mkTeamState lineup false) m = mkTeamState lineup false.
Proof.
  cbv zeta. unfold TeamBuilder.handleSave.
  destruct (TeamBuilder.canSave lineup); cbn [negb].
  - destruct user as [u|].
    + case_reply reply;
        (repeat split; try (do 2 eexists; reflexivity));
        do 3 eexists;
        instantiate (3 := [SetSaving true; Fetch _; SetSaving false]);
        reflexivity.
    + repeat split; try (do 2 eexists; reflexivity).
      exists []. do 2 eexists. reflexivity.
  - destruct (remaining lineup <? 0);
      repeat split; try (do 2 eexists; reflexivity);
      exists []; do 2 eexists; reflexivity.
Qed.



(** X9. With nobody signed in, [handleSave] on a lineup that passes the gate
    reports ["Success"] although nothing was sent: its whole run is that one
    alert. *)
Theorem handleSave_signed_out_reports_success
  (lineup : Lineup) (reply : NetReply SaveError) (Hgate : save_gate lineup) :
  TeamBuilder.handleSave None lineup reply
  = ([AlertShown "Success" "Your lineup has been saved!" []], inr tt).
Proof.
  apply save_gate_canSave in Hgate.
  unfold TeamBuilder.handleSave. now rewrite Hgate.
Qed.

Lemma handleSave_signed_out_reports_success_witness :
  save_gate fullLineup
  /\ TeamBuilder.handleSave None fullLineup (Rejects (TypeError "offline"))
     = ([AlertShown "Success" "Your lineup has been saved!" []], inr tt).
Proof.
  split; [exact save_gate_fullLineup|].
  apply (handleSave_signed_out_reports_success fullLineup
           (Rejects (TypeError "offline"))).
  exact save_gate_fullLineup.
Defined.

(** ** Loading and the effect on the signed-in identity *)

(** X10. When the payload of a successful load satisfies
    [creditsUsed + remaining = 100], the loaded state satisfies it exactly
    when the payload's [remaining] is not zero. *)
Theorem load_keeps_identity_iff
  (u : User) (st : TeamState) (data : LineupData) (c r : Z)
  (Hc : data_creditsUsed data = Some c) (Hr : data_remaining data = Some r)
  (Hsum : c + r = 100) :
  budget_identity (st_lineup (after st (loadLineup (Some u) (okReply data))))
  <-> r <> 0.
Proof.
  unfold budget_identity; cbn -[Z.add].
  rewrite Hc, Hr; unfold or_number.
  destruct (Z.eqb_spec c 0), (Z.eqb_spec r 0); lia.
Qed.

Lemma load_keeps_identity_iff_witness :
  data_creditsUsed fullData = Some 100 /\ data_remaining fullData = Some 0
  /\ 100 + 0 = 100
  /\ (budget_identity
        (st_lineup (after initialState
                      (loadLineup (Some someUser) (okReply fullData))))
      <-> 0 <> 0).
Proof.
  split; [reflexivity|]. split; [reflexivity|]. split; [reflexivity|].
  apply (load_keeps_identity_iff someUser initialState fullData 100 0);
    reflexivity.
Defined.

(** X11. The effect that runs when the signed-in identity changes replaces
    the lineup only for a signed-in user whose load is answered with an [ok]
    response; in every other case (sign-out, a rejected [fetch], a response
    that is not [ok]) the whole state stays, so the lineup of the previous
    identity remains in the provider. *)
Theorem useEffect_user_keeps_state_unless_loaded
  (user : option User) (reply : NetReply LineupData) (st : TeamState) :
  (exists u data, user = Some u /\ reply = okReply data)
  \/ after st (useEffect_user user reply) = st.
Proof.
  destruct st as [l s].
  destruct user as [u|]; [|right; reflexivity].
  case_typed_reply reply.
  - right; reflexivity.
  - right; reflexivity.
  - left; exists u, data; split; reflexivity.
  - right; reflexivity.
  - right; reflexivity.
Qed.

(** ** Which players the list marks as selected *)

Lemma isSelected_spec (lineup : Lineup) (item : Player) :
  isSelected lineup item = true
  <-> exists pos p, get_slot lineup pos = Obj p /\ id p = id item.
Proof.
  unfold isSelected, Object_values; cbn [existsb].
  rewrite !orb_true_iff. split.
  - intros H.
    repeat match goal with
           | H : _ \/ _ |- _ => destruct H as [H|H]
           end; try discriminate.
    + destruct (setter lineup) as [| |p] eqn:E; try discriminate.
      exists Ksetter, p. split; [exact E | now apply String.eqb_eq].
    + destruct (outsideHitter lineup) as [| |p] eqn:E; try discriminate.
      exists KoutsideHitter, p. split; [exact E | now apply String.eqb_eq].
    + destruct (oppositeHitter lineup) as [| |p] eqn:E; try discriminate.
      exists KoppositeHitter, p. split; [exact E | now apply String.eqb_eq].
    + destruct (middleBlocker lineup) as [| |p] eqn:E; try discriminate.
      exists KmiddleBlocker, p. split; [exact E | now apply String.eqb_eq].
    + destruct (libero lineup) as [| |p] eqn:E; try discriminate.
      exists Klibero, p. split; [exact E | now apply String.eqb_eq].
    + destruct (defensiveSpecialist lineup) as [| |p] eqn:E; try discriminate.
      exists KdefensiveSpecialist, p.
      split; [exact E | now apply String.eqb_eq].
  - intros (pos & p & Hp & Hid). apply String.eqb_eq in Hid.
    destruct pos; cbn [get_slot] in Hp; rewrite Hp, Hid; tauto.
Qed.

(** X12. A player card is marked selected exactly when one of the six slots
    holds a player with the same [id] (the two numbers of the lineup never
    count); in particular nobody is selected in the empty lineup, and the
    card is disabled only when the list was opened without a position. *)
Theorem isSelected_iff (lineup : Lineup) (item : Player) :
  (isSelected lineup item = true
   <-> exists pos p, get_slot lineup pos = Obj p /\ id p = id item)
  /\ isSelected initialLineup item = false
  /\ (forall pos, card_disabled (Some pos) lineup item = false).
Proof.
  split; [apply isSelected_spec|]. split; [reflexivity|].
  intros pos. unfold card_disabled. apply andb_false_r.
Qed.

(** X13. Once a player has been assigned to a slot the list marks that
    player as selected, whatever the lineup was before. *)
Theorem assigned_player_is_selected
  (lineup : Lineup) (pos : PositionKey) (p : Player) :
  isSelected (setPlayerToPosition_lineup lineup pos (Some p)) p = true.
Proof.
  apply isSelected_spec.
  exists pos, p. split; [|reflexivity].
  destruct (setPlayerToPosition_lineup_spec lineup pos (Some p)) as (Hs & _).
  cbv zeta in Hs. rewrite Hs. destruct pos; reflexivity.
Qed.

(** ** Filtering and sorting the roster *)

Lemma insert_by_perm {A : Type} (compare : A -> A -> Z) (x : A) (l : list A) :
  Permutation (insert_by compare x l) (x :: l).
Proof.
  induction l as [|y l IH]; cbn.
  - apply Permutation_refl.
  - destruct (compare x y <=? 0).
    + apply Permutation_refl.
    + eapply perm_trans; [apply perm_skip, IH | apply perm_swap].
Qed.

Lemma sort_by_perm {A : Type} (compare : A -> A -> Z) (l : list A) :
  Permutation (sort_by compare l) l.
Proof.
  induction l as [|x l IH]; cbn.
  - apply perm_nil.
  - eapply perm_trans; [apply insert_by_perm | apply perm_skip, IH].
Qed.

Lemma filter_filter {A : Type} (f g : A -> bool) (l : list A) :
  filter g (filter f l) = filter (fun x => f x && g x) l.
Proof.
  induction l as [|x l IH]; cbn; [reflexivity|].
  destruct (f x); cbn; [destruct (g x)|]; now rewrite IH.
Qed.

Lemma filter_all {A : Type} (l : list A) : filter (fun _ => true) l = l.
Proof. induction l as [|x l IH]; cbn; congruence. Qed.

(** The list before the sort. *)
Lemma applyFilters_unsorted (toLowerCase : string -> string)
  (localeCompare : string -> string -> Z) (players : list Player)
  (search filterPosition : string) :
  applyFilters toLowerCase localeCompare players search filterPosition
    EmptyString
  = filter (passes_filters toLowerCase search filterPosition) players.
Proof.
  unfold applyFilters, passes_filters; cbv zeta.
  cbn [String.eqb].
  destruct (is_empty search), (is_empty filterPosition); cbn [negb orb].
  - symmetry. apply filter_all.
  - apply filter_ext; intros p. reflexivity.
  - apply filter_ext; intros p. now rewrite andb_true_r.
  - apply filter_filter.
Qed.

Lemma applyFilters_sorts (toLowerCase : string -> string)
  (localeCompare : string -> string -> Z) (players : list Player)
  (search filterPosition sortBy : string) :
  let unsorted :=
    applyFilters toLowerCase localeCompare players search filterPosition
      EmptyString in
  applyFilters toLowerCase localeCompare players search filterPosition sortBy
  = if String.eqb sortBy "name"
    then sort_by (fun a b => localeCompare (name a) (name b)) unsorted
    else if String.eqb sortBy "creditCost"
         then sort_by (fun a b => creditCost b - creditCost a) unsorted
         else unsorted.
Proof. reflexivity. Qed.

(** X14. Whatever the search, the position filter and the sort order,
    [applyFilters] shows exactly the players of the roster that pass the two
    filters, each as many times as the roster has it: the sort neither drops
    nor repeats a player, and with no search and no position filter the whole
    roster is shown.  A player passes the position filter when
    [posMap[filterPosition] || filterPosition] is the player's position; for
    a filter that names a property every object inherits ([toString],
    [constructor], ...) that value is not a string, and nobody is shown. *)
Theorem applyFilters_shows_matching_players
  (toLowerCase : string -> string) (localeCompare : string -> string -> Z)
  (players : list Player) (search filterPosition sortBy : string) :
  let shown :=
    applyFilters toLowerCase localeCompare players search filterPosition
      sortBy in
  Permutation shown
    (filter (passes_filters toLowerCase search filterPosition) players)
  /\ (forall p,
         In p shown
         <-> In p players
             /\ (search = EmptyString
                 \/ includes (toLowerCase (name p)) (toLowerCase search) = true
                 \/ includes (toLowerCase (teamName p)) (toLowerCase search)
                    = true)
             /\ (filterPosition = EmptyString
                 \/ filter_abbr filterPosition = AbbrString (position p)))
  /\ Permutation
       (applyFilters toLowerCase localeCompare players EmptyString EmptyString
          sortBy) players
  /\ (In filterPosition Object_prototype_properties -> shown = []).
Proof.
  cbv zeta.
  assert (Hperm : forall s f,
             Permutation
               (applyFilters toLowerCase localeCompare players s f sortBy)
               (filter (passes_filters toLowerCase s f) players)).
  { intros s f. rewrite applyFilters_sorts; cbv zeta.
    rewrite applyFilters_unsorted.
    destruct (String.eqb sortBy "name"); [apply sort_by_perm|].
    destruct (String.eqb sortBy "creditCost");
      [apply sort_by_perm | apply Permutation_refl]. }
  assert (Hpos : forall p,
             position_is (filter_abbr filterPosition) p = true
             <-> filter_abbr filterPosition = AbbrString (position p)).
  { intros p. unfold position_is.
    destruct (filter_abbr filterPosition) as [a|].
    - rewrite String.eqb_eq. split; congruence.
    - split; discriminate. }
  split; [apply Hperm|]. split; [|split].
  - intros p. split.
    + intros Hin. apply (Permutation_in p (Hperm search filterPosition)) in Hin.
      apply filter_In in Hin. destruct Hin as [Hin Hpass].
      split; [exact Hin|].
      unfold passes_filters, search_matches in Hpass.
      apply andb_true_iff in Hpass. destruct Hpass as [Hs Hf].
      rewrite !orb_true_iff in Hs. rewrite orb_true_iff in Hf. split.
      * destruct Hs as [Hs|[Hs|Hs]]; [left|right; left|right; right]; auto.
        now destruct search.
      * destruct Hf as [Hf|Hf]; [left; now destruct filterPosition|right].
        now apply Hpos.
    + intros (Hin & Hs & Hf).
      apply (Permutation_in p (Permutation_sym (Hperm search filterPosition))).
      apply filter_In. split; [exact Hin|].
      unfold passes_filters, search_matches.
      apply andb_true_iff. rewrite !orb_true_iff. split.
      * destruct Hs as [->|[Hs|Hs]]; [left; reflexivity|right; left|right; right];
          assumption.
      * destruct Hf as [->|Hf]; [left; reflexivity|right].
        now apply Hpos.
  - eapply perm_trans; [apply Hperm|].
    unfold passes_filters; cbn [is_empty orb andb].
    rewrite filter_all. apply Permutation_refl.
  - intros Hinh. apply Permutation_nil, Permutation_sym.
    eapply perm_trans; [apply Hperm|].
    assert (Hnone : forall p,
               passes_filters toLowerCase search filterPosition p = false).
    { intros p. unfold passes_filters.
      cbn in Hinh.
      repeat (destruct Hinh as [<-|Hinh];
              [cbn; apply andb_false_r|]).
      destruct Hinh. }
    clear Hperm Hpos. induction players as [|x l IH]; cbn.
    + apply perm_nil.
    + now rewrite Hnone.
Qed.

Lemma insert_by_cost_sorted (x : Player) (l : list Player) :
  StronglySorted (fun a b => creditCost b <= creditCost a) l ->
  StronglySorted (fun a b => creditCost b <= creditCost a)
    (insert_by (fun a b => creditCost b - creditCost a) x l).
Proof.
  induction l as [|y l IH]; intros Hs; cbn.
  - constructor; constructor.
  - inversion Hs as [|? ? Hl Hall]; subst.
    destruct (Z.leb_spec (creditCost y - creditCost x) 0) as [Hle|Hgt].
    + constructor; [exact Hs|].
      constructor; [lia|].
      eapply Forall_impl; [|exact Hall]. cbn; intros; lia.
    + constructor; [apply IH, Hl|].
      eapply Permutation_Forall;
        [apply Permutation_sym, insert_by_perm|].
      constructor; [lia | exact Hall].
Qed.

(** X15. Sorted by credit cost, the list goes from the most expensive
    player to the cheapest: every player costs at least as much as every
    player shown after. *)
Theorem applyFilters_by_cost_is_descending
  (toLowerCase : string -> string) (localeCompare : string -> string -> Z)
  (players : list Player) (search filterPosition : string) :
  StronglySorted (fun a b => creditCost b <= creditCost a)
    (applyFilters toLowerCase localeCompare players search filterPosition
       "creditCost").
Proof.
  rewrite applyFilters_sorts; cbv zeta.
  change (String.eqb "creditCost" "name") with false.
  change (String.eqb "creditCost" "creditCost") with true. cbv iota.
  generalize (applyFilters toLowerCase localeCompare players search
                filterPosition EmptyString) as l.
  induction l as [|x l IH]; cbn.
  - constructor.
  - apply insert_by_cost_sorted, IH.
Qed.

(** X16. The position filter takes the key of a position and its
    abbreviation alike: opened from the team builder for a position (the
    filter is then the key, as in [position=setter]) the list shows what the
    filter button labelled with the builder's abbreviation of that position
    shows. *)
Theorem applyFilters_key_or_abbreviation
  (toLowerCase : string -> string) (localeCompare : string -> string -> Z)
  (players : list Player) (search sortBy : string) (pos : PositionKey) :
  applyFilters toLowerCase localeCompare players search (key_name pos) sortBy
  = applyFilters toLowerCase localeCompare players search (position_abbr pos)
      sortBy.
Proof. destruct pos; reflexivity. Qed.

(** X17. Two searches that differ only in letter case, that is, with the
    same lower-case form, show the same list. *)
Theorem applyFilters_search_ignores_case
  (toLowerCase : string -> string) (localeCompare : string -> string -> Z)
  (players : list Player) (search1 search2 filterPosition sortBy : string)
  (Hlower : toLowerCase search1 = toLowerCase search2)
  (Hempty : is_empty search1 = is_empty search2) :
  applyFilters toLowerCase localeCompare players search1 filterPosition sortBy
  = applyFilters toLowerCase localeCompare players search2 filterPosition
      sortBy.
Proof.
  unfold applyFilters, search_matches; cbv zeta.
  now rewrite Hlower, Hempty.
Qed.

Lemma applyFilters_search_ignores_case_witness :
  string_lower "AUSTIN" = string_lower "austin"
  /\ is_empty "AUSTIN" = is_empty "austin"
  /\ applyFilters string_lower code_compare roster "AUSTIN" "L" "name"
     = applyFilters string_lower code_compare roster "austin" "L" "name".
Proof.
  split; [reflexivity|]. split; [reflexivity|].
  apply (applyFilters_search_ignores_case string_lower code_compare roster
           "AUSTIN" "austin" "L" "name"); reflexivity.
Defined.

(** ** Loading the roster *)

(** X18. [fetchPlayers] never rejects; it raises the loading flag, issues
    its one request while the flag is up, and lowers the flag last on every
    path.  The roster is replaced only by the parsed payload of an [ok]
    response.  A rejected [fetch] and an [ok] response whose body cannot be
    read are logged and leave the roster as it was; a response that is not
    [ok] leaves the roster as it was and is not logged. *)
Theorem fetchPlayers_loading_and_roster
  (user : option User) (reply : NetReply (list Player)) (st : RosterState) :
  let m := fetchPlayers user reply in
  snd m = inr tt
  /\ (exists req rest,
         fst m = (UiSetLoading true :: UiFetch req :: rest
                    ++ [UiSetLoading false])%list
         /\ filter is_UiFetch rest = [])
  /\ rs_loading (ui_after st m) = false
  /\ rs_players (ui_after st m)
     = match reply with
       | Replies response =>
           if ok response
           then match json response with
                | inr data => data
                | inl _ => rs_players st
                end
           else rs_players st
       | Rejects _ => rs_players st
       end
  /\ (forall e label,
         In (UiConsoleError label e) (fst m)
         <-> label = "Failed to fetch players:"
             /\ (reply = Rejects e
                 \/ exists response,
                      reply = Replies response /\ ok response = true
                      /\ json response = inl e)).
Proof.
  cbv zeta.
  assert (Hlog : forall (e e' : JsError) label,
             In (UiConsoleError label e')
                [UiSetLoading true;
                 UiFetch (mkRequest (Backend "/api/players") GET
                            [("Authorization", bearer_optional user)] None);
                 UiConsoleError "Failed to fetch players:" e;
                 UiSetLoading false]
             <-> label = "Failed to fetch players:" /\ e = e').
  { intros e e' label. cbn. split.
    - intros [H|[H|[H|[H|[]]]]]; try discriminate.
      injection H as <- <-. split; reflexivity.
    - intros [-> ->]. right; right; left; reflexivity. }
  case_typed_reply reply.
  - split; [reflexivity|]. split.
    { exists (mkRequest (Backend "/api/players") GET
                [("Authorization", bearer_optional user)] None),
        [UiConsoleError "Failed to fetch players:" e].
      split; reflexivity. }
    split; [reflexivity|]. split; [reflexivity|].
    intros e' label.
    change (fst (fetchPlayers user (Rejects e)))
      with [UiSetLoading true;
            UiFetch (mkRequest (Backend "/api/players") GET
                       [("Authorization", bearer_optional user)] None);
            UiConsoleError "Failed to fetch players:" e;
            UiSetLoading false].
    rewrite Hlog. split.
    + intros [-> ->]. split; [reflexivity | left; reflexivity].
    + intros [-> [H|(r & H & _)]]; [|discriminate].
      injection H as ->. split; reflexivity.
  - split; [reflexivity|]. split.
    { exists (mkRequest (Backend "/api/players") GET
                [("Authorization", bearer_optional user)] None),
        [UiConsoleError "Failed to fetch players:" e].
      split; reflexivity. }
    split; [reflexivity|]. split; [reflexivity|].
    intros e' label.
    change (fst (fetchPlayers user (Replies (mkResponse true (inl e)))))
      with [UiSetLoading true;
            UiFetch (mkRequest (Backend "/api/players") GET
                       [("Authorization", bearer_optional user)] None);
            UiConsoleError "Failed to fetch players:" e;
            UiSetLoading false].
    rewrite Hlog. split.
    + intros [-> ->]. split; [reflexivity|]. right.
      eexists; repeat split.
    + intros [-> [H|(r & H & _ & Hj)]]; [discriminate|].
      injection H as <-. cbn in Hj. injection Hj as ->. split; reflexivity.
  - split; [reflexivity|]. split.
    { exists (mkRequest (Backend "/api/players") GET
                [("Authorization", bearer_optional user)] None),
        [UiSetPlayers data].
      split; reflexivity. }
    split; [reflexivity|]. split; [reflexivity|].
    intros e' label. split.
    + cbn. intros [H|[H|[H|[H|[]]]]]; discriminate.
    + intros [_ [H|(r & H & _ & Hj)]]; [discriminate|].
      injection H as <-. discriminate Hj.
  - split; [reflexivity|]. split.
    { exists (mkRequest (Backend "/api/players") GET
                [("Authorization", bearer_optional user)] None), [].
      split; reflexivity. }
    split; [reflexivity|]. split; [reflexivity|].
    intros e' label. split.
    + cbn. intros [H|[H|[H|[]]]]; discriminate.
    + intros [_ [H|(r & H & Hok & _)]]; [discriminate|].
      injection H as <-. discriminate Hok.
  - split; [reflexivity|]. split.
    { exists (mkRequest (Backend "/api/players") GET
                [("Authorization", bearer_optional user)] None), [].
      split; reflexivity. }
    split; [reflexivity|]. split; [reflexivity|].
    intros e' label. split.
    + cbn. intros [H|[H|[H|[]]]]; discriminate.
    + intros [_ [H|(r & H & Hok & _)]]; [discriminate|].
      injection H as <-. discriminate Hok.
Qed.

(** X19. Unlike [loadLineup] and [saveLineup], which do nothing without a
    signed-in user, [fetchPlayers] sends its request also when nobody is
    signed in, with the header [Authorization: Bearer undefined]. *)
Theorem fetchPlayers_signed_out_still_requests
  (reply : NetReply (list Player)) (reply_load : NetReply LineupData)
  (reply_save : NetReply SaveError) (lineup : Lineup) :
  filter is_UiFetch (fst (fetchPlayers None reply))
  = [UiFetch (mkRequest (Backend "/api/players") GET
                [("Authorization", "Bearer undefined")] None)]
  /\ trace (loadLineup None reply_load) = []
  /\ trace (saveLineup None lineup reply_save) = [].
Proof.
  split; [|split; reflexivity].
  case_typed_reply reply; reflexivity.
Qed.

(** ** Signing up *)

(** X20. [handleSignUp] calls [signUp] exactly when the three fields are
    non-empty and the password has at least six characters.  Otherwise its
    whole run is one ["Error"] alert (the loading flag is not touched and
    there is no navigation): ["Please fill in all fields"] when a field is
    empty, also if the password is too short as well, and
    ["Password must be at least 6 characters"] otherwise. *)
Theorem handleSignUp_validation
  (name email password : string) (signUp_result : JsError + unit) :
  let m := SignUp.handleSignUp name email password signUp_result in
  let valid :=
    name <> EmptyString /\ email <> EmptyString /\ password <> EmptyString
    /\ (6 <= String.length password)%nat in
  (filter is_UiSignUp (fst m) <> [] <-> valid)
  /\ (~ valid ->
      m = ([UiAlert "Error"
              (if is_empty name || is_empty email || is_empty password
               then "Please fill in all fields"
               else "Password must be at least 6 characters")], inr tt)).
Proof.
  cbv zeta. unfold SignUp.handleSignUp.
  destruct name as [|c1 n]; [split; [split; [intros H; now elim H | tauto] | reflexivity]|].
  destruct email as [|c2 e]; [split; [split; [intros H; now elim H | tauto] | reflexivity]|].
  destruct password as [|c3 pw]; [split; [split; [intros H; now elim H | tauto] | reflexivity]|].
  cbn [is_empty orb].
  destruct (Z.ltb_spec (Z.of_nat (String.length (String c3 pw))) 6) as [Hshort|Hlong].
  - split; [|reflexivity].
    split; [intros H; now elim H|]. intros (_ & _ & _ & Hlen). lia.
  - split.
    + split; [intros _; repeat split; try discriminate; lia|].
      intros _. destruct signUp_result as [err|[]]; cbn; discriminate.
    + intros Hn. exfalso. apply Hn. repeat split; try discriminate. lia.
Qed.

Lemma handleSignUp_validation_witness :
  ~ ("Ana" <> EmptyString /\ "ana@lovb.test" <> EmptyString
     /\ "12345" <> EmptyString /\ (6 <= String.length "12345")%nat)
  /\ SignUp.handleSignUp "Ana" "ana@lovb.test" "12345" (inr tt)
     = ([UiAlert "Error" "Password must be at least 6 characters"], inr tt).
Proof.
  assert (H : ~ ("Ana" <> EmptyString /\ "ana@lovb.test" <> EmptyString
                 /\ "12345" <> EmptyString
                 /\ (6 <= String.length "12345")%nat)).
  { intros (_ & _ & _ & Hlen). simpl in Hlen. lia. }
  split; [exact H|].
  apply (handleSignUp_validation "Ana" "ana@lovb.test" "12345" (inr tt)).
  exact H.
Defined.

(** X21. On valid input [handleSignUp] raises the loading flag, calls
    [signUp] with the e-mail, the password and the name in that order, then
    either navigates to [/home] (when [signUp] resolves) or shows
    ["Sign Up Failed"] with the message of the error and does not navigate
    (when it rejects); it lowers the loading flag last in both cases and
    never rejects itself. *)
Theorem handleSignUp_valid_run
  (name email password : string) (signUp_result : JsError + unit)
  (Hname : name <> EmptyString) (Hemail : email <> EmptyString)
  (Hlen : (6 <= String.length password)%nat) :
  SignUp.handleSignUp name email password signUp_result
  = ([UiSetLoading true; UiSignUp email password name;
      match signUp_result with
      | inr _ => UiRouterReplace "/home"
      | inl e => UiAlert "Sign Up Failed" (error_message e)
      end;
      UiSetLoading false], inr tt).
Proof.
  unfold SignUp.handleSignUp.
  destruct name as [|c1 n]; [congruence|].
  destruct email as [|c2 e]; [congruence|].
  destruct password as [|c3 pw]; [simpl in Hlen; lia|].
  cbn [is_empty orb].
  destruct (Z.ltb_spec (Z.of_nat (String.length (String c3 pw))) 6); [lia|].
  destruct signUp_result as [err|[]]; reflexivity.
Qed.

Lemma handleSignUp_valid_run_witness :
  "Ana" <> EmptyString /\ "ana@lovb.test" <> EmptyString
  /\ (6 <= String.length "secret")%nat
  /\ SignUp.handleSignUp "Ana" "ana@lovb.test" "secret"
       (inl (Error "Email already registered"))
     = ([UiSetLoading true; UiSignUp "ana@lovb.test" "secret" "Ana";
         UiAlert "Sign Up Failed" "Email already registered";
         UiSetLoading false], inr tt).
Proof.
  split; [discriminate|]. split; [discriminate|].
  split; [simpl; lia|].
  apply (handleSignUp_valid_run "Ana" "ana@lovb.test" "secret"
           (inl (Error "Email already registered")));
    [discriminate | discriminate | simpl; lia].
Defined.
